(** * jsonrpchttp: a JSON-RPC 2.0 server over WSGI

    Shallow embedding of [src/jsonrpchttp.py] and the properties of its
    request validation, parameter binding, dispatch, batch processing and
    HTTP transport adapter.

    Python values are an inductive type, dictionaries are finite maps with
    string keys, and functions that may raise or have effects live in a
    small state-and-exception monad. *)

From Stdlib Require Import ZArith Strings.Byte Strings.Ascii.
From stdpp Require Import gmap strings list fin_maps.

Set Warnings "-register-all".
Open Scope Z_scope.

(** ** Python strings

    A WSGI environment holds native strings whose code points are below 256,
    so [string] (a sequence of 8-bit characters) represents them exactly.
    JSON text is compared for equality only. *)

Module PyStr.

(** [str.split(sep)] for a one-character separator: never returns an
    empty list, and [split_on sep ""] is [[""]]. *)
Fixpoint split_on (sep : ascii) (s : string) : list string :=
  match s with
  | EmptyString => [EmptyString]
  | String c s' =>
      if Ascii.eqb c sep then EmptyString :: split_on sep s'
      else match split_on sep s' with
           | [] => [String c EmptyString]
           | h :: t => String c h :: t
           end
  end.

(** The characters [str.strip()] removes, among code points below 256:
    U+0009..U+000D, U+001C..U+0020, U+0085 and U+00A0. *)
Definition isspace (c : ascii) : bool :=
  let n := Z.of_nat (nat_of_ascii c) in
  ((9 <=? n) && (n <=? 13)) || ((28 <=? n) && (n <=? 32))
  || (n =? 133) || (n =? 160).

Fixpoint lstrip (s : string) : string :=
  match s with
  | EmptyString => EmptyString
  | String c s' => if isspace c then lstrip s' else s
  end.

(** [rstrip] drops the trailing run of whitespace. *)
Fixpoint rstrip (s : string) : string :=
  match s with
  | EmptyString => EmptyString
  | String c s' =>
      match rstrip s' with
      | EmptyString => if isspace c then EmptyString else String c EmptyString
      | r => String c r
      end
  end.

Definition strip (s : string) : string := rstrip (lstrip s).

(** The slice [s[:n]]. *)
Fixpoint take (n : nat) (s : string) : string :=
  match n, s with
  | S n', String c s' => String c (take n' s')
  | _, _ => EmptyString
  end.

(** [c in s] for a character. *)
Fixpoint contains (c : ascii) (s : string) : bool :=
  match s with
  | EmptyString => false
  | String c' s' => Ascii.eqb c' c || contains c s'
  end.

(** [sep.join(parts)] for a one-character separator. *)
Fixpoint join_with (sep : ascii) (parts : list string) : string :=
  match parts with
  | [] => EmptyString
  | [p] => p
  | p :: rest => p +:+ String sep (join_with sep rest)
  end.

End PyStr.

Arguments PyStr.take : simpl never.
Arguments PyStr.strip : simpl never.

(** ** Python values *)

(** The values that flow through the server: what [json.loads] produces
    (None, bool, int, float, str, list, dict with string keys) and tuples,
    which handlers may return.  A float is carried by its literal: the
    server never computes with one. *)
Inductive pyval : Type :=
| PNone
| PBool (b : bool)
| PInt (z : Z)
| PFloat (literal : string)
| PStr (s : string)
| PList (l : list pyval)
| PTuple (l : list pyval)
| PDict (d : gmap string pyval).

Inductive exn : Type :=
| AttributeError
| TypeError
| IndexError
| KeyError
| ValueError
| RecursionError
| HandlerError (tag : string).

(** The outcome of a Python call: a returned value or a raised exception. *)
Inductive result (A : Type) : Type :=
| Ret (a : A)
| Raise (e : exn).
Arguments Ret {A} a.
Arguments Raise {A} e.

(** ** Protocol constants *)

Definition PARSE_ERROR : list pyval := [PInt (-32700); PStr "Parse error"].
Definition INVALID_REQUEST : list pyval := [PInt (-32600); PStr "Invalid Request"].
Definition METHOD_NOT_FOUND : list pyval := [PInt (-32601); PStr "Method not found"].
Definition INVALID_PARAMS : list pyval := [PInt (-32602); PStr "Invalid params"].

Definition ONLY_POST_ALLOWED : list pyval := [PInt 0; PStr "Only POST allowed"].
Definition BAD_CONTENT_TYPE : list pyval :=
  [PInt 1; PStr "Bad or missing Content-Type header"].
Definition BAD_ACCEPT : list pyval := [PInt 2; PStr "Bad Accept header"].
Definition SERVER_ERROR : list pyval := [PInt (-32000); PStr "Server error"].

Definition HTTP_OK : string := "200 OK".
Definition HTTP_NO_CONTENT : string := "204 No Content".
Definition HTTP_BAD_REQUEST : string := "400 Bad Request".
Definition HTTP_NOT_FOUND : string := "404 Not Found".
Definition HTTP_METHOD_NOT_ALLOWED : string := "405 Method Not Allowed".
Definition HTTP_NOT_ACCEPTABLE : string := "406 Not Acceptable".
Definition HTTP_UNSUPPORTED_MEDIA : string := "415 Unsupported Media Type".
Definition HTTP_SERV_ERROR : string := "500 Internal Server Error".
Definition HTTP_TOO_MANY_REQUESTS : string := "429 Too Many Requests".

(** ** Helpers on dictionaries and sequences *)

(** [for k in d: if k not in keys: return False] / [return True]. *)
Definition dict_only_contains (d : gmap string pyval) (keys : list string) : bool :=
  forallb (fun k => bool_decide (k ∈ keys)) (map_to_list d).*1.

(** [k in d] for a dictionary. *)
Definition dict_has (d : gmap string pyval) (k : string) : bool :=
  bool_decide (is_Some (d !! k)).

(** The slice [l[start:stop]] with Python's treatment of negative and
    out-of-range bounds. *)
Definition py_slice {A} (l : list A) (start stop : Z) : list A :=
  let n := Z.of_nat (length l) in
  let clamp i := if i <? 0 then Z.max (i + n) 0 else Z.min i n in
  let lo := clamp start in
  let hi := clamp stop in
  take (Z.to_nat (hi - lo)) (drop (Z.to_nat lo) l).

(** ** Response envelopes *)

(** [return_result]: the dictionary
    [{"jsonrpc": "2.0", ("error" if err else "result"): result, "id": req_id}]. *)
Definition return_result (res : pyval) (req_id : pyval) (err : bool) : pyval :=
  PDict (<["jsonrpc" := PStr "2.0"]>
         (<[(if err then "error" else "result") := res]>
          (<["id" := req_id]> ∅))).

(** [geterrdata]: indexes the error tuple at 0 and 1, so a tuple with fewer
    than two elements raises [IndexError]. *)
Definition geterrdata (error : list pyval) : result pyval :=
  match error with
  | code :: message :: _ =>
      Ret (PDict (<["code" := code]> (<["message" := message]> ∅)))
  | _ => Raise IndexError
  end.

Definition return_error (error : list pyval) (req_id : pyval) : result pyval :=
  match geterrdata error with
  | Ret data => Ret (return_result data req_id true)
  | Raise e => Raise e
  end.

(** ** Content types *)

Definition json_media_types : list string :=
  ["application/json-rpc"; "application/json"; "application/jsonrequest"].

Definition not_valid_content_type (content_type : string) : bool :=
  let content_type := PyStr.split_on ";" content_type in
  if (2 <? Z.of_nat (length content_type)) then true
  else if (1 <? Z.of_nat (length content_type))
          && negb (String.eqb (PyStr.take 8 (PyStr.strip (default EmptyString (content_type !! 1%nat))))
                              "charset=")
  then true
  else negb (bool_decide (default EmptyString (content_type !! 0%nat) ∈ json_media_types)).

(** ** The monad of server code

    A computation reads and updates a state, and returns or raises. *)

Definition M (S A : Type) : Type := S → S * result A.

Definition ret {S A} (a : A) : M S A := fun st => (st, Ret a).
Definition raise {S A} (e : exn) : M S A := fun st => (st, Raise e).
Definition lift {S A} (r : result A) : M S A := fun st => (st, r).
Definition bind {S A B} (m : M S A) (k : A → M S B) : M S B :=
  fun st => match m st with
            | (st', Ret a) => k a st'
            | (st', Raise e) => (st', Raise e)
            end.

Notation "'let!' x ':=' m 'in' k" := (bind m (fun x => k))
  (at level 10, x name, m at level 100, k at level 200).
Notation "m '>>' k" := (bind m (fun _ => k))
  (at level 61, k at level 200, only parsing).

(** ** The server, its handlers and the WSGI environment *)

(** What [inspect.getargspec] reports of a function: the declared parameter
    names and the tuple of default values ([None] when there is none). *)
Record ArgSpec : Type := {
  args : list string;
  defaults : option (list pyval);
}.

(** How a handler is invoked: [method(self, ip_addr, *params)] or
    [method(self, ip_addr, **params)]. *)
Inductive call_args : Type :=
| Positional (params : list pyval)
| Keyword (params : gmap string pyval).

Abbreviation caller_addr := (option (list byte)).
Abbreviation header_list := (list (string * string)).

(** The WSGI environment: [REQUEST_METHOD] and [wsgi.input] are always
    present, the other keys the server reads may be absent. *)
Record environ : Type := {
  REQUEST_METHOD : string;
  CONTENT_TYPE : option string;
  HTTP_ACCEPT : option string;
  REMOTE_ADDR : option string;
  wsgi_input : list byte;
}.

(** Library functions the server calls.  [utf8_decode] is
    [bytes.decode('utf-8')], [None] where it raises [UnicodeDecodeError], a
    [ValueError].  [json_loads] is [json.loads]: it returns the value, raises
    [ValueError] on text that is not JSON, and may raise otherwise (a
    [RecursionError] on text nested too deep).  [ip_address_packed a] is
    [ipaddress.ip_address(a).packed] and is [None] where that raises
    [ValueError]; [json_dumps] is [json.dumps] followed by [str.encode]. *)
Class PyLib : Type := {
  utf8_decode : list byte → option string;
  json_loads : string → result pyval;
  json_dumps : pyval → list byte;
  ip_address_packed : string → option (list byte);
}.

(** A registered method object: whether it is callable, the parameter names
    [inspect.getargspec] reports for the object itself, the signature of its
    [original_func] attribute when it has one, and its behaviour when called
    with the server, the caller address and the request's parameters.  The
    server object is immutable, so the call depends on the handlers' state
    [W], the address and the parameters.  [original_func], when present, is
    a function whose signature [inspect.getargspec] can report. *)
Record method_obj (W : Type) : Type := {
  callable : bool;
  own_args : list string;
  original_func : option ArgSpec;
  call : caller_addr → call_args → W → W * result pyval;
}.
Arguments callable {W} _.
Arguments own_args {W} _.
Arguments original_func {W} _.
Arguments call {W} _ _ _ _.

(** A server object: the two attributes [__init__] sets, and whatever other
    attributes the instance has ([__init__] sets none; a subclass may). *)
Record JsonRpcServer (W : Type) : Type := {
  methods : gmap string (method_obj W);
  allowed_origins : option string;
  attributes : gmap string string;
}.
Arguments methods {W} _.
Arguments allowed_origins {W} _.
Arguments attributes {W} _.

(** What a call acts on: the handlers' state and the log of
    [start_response] calls. *)
Record state (W : Type) : Type := {
  world : W;
  started : list (string * header_list);
}.
Arguments world {W} _.
Arguments started {W} _.

Section Server.

Context {W : Type} {lib : PyLib}.

(** [JsonRpcServer.__init__].  The parameter's type already makes [methods]
    a dictionary with string keys; a value that is not callable, or whose
    own signature has no parameter, raises [TypeError]. *)
Definition init (methods : gmap string (method_obj W))
    (allowed_origins : option string) : result (JsonRpcServer W) :=
  if forallb (fun m => callable m && (1 <=? Z.of_nat (length (own_args m))))
       (map_to_list methods).*2
  then Ret {| methods := methods; allowed_origins := allowed_origins;
              attributes := ∅ |}
  else Raise TypeError.

Definition start_response (status : string) (headers : header_list)
    : M (state W) unit :=
  fun st => ({| world := world st; started := started st ++ [(status, headers)] |},
             Ret tt).

(** Calling a handler: only the handlers' state changes. *)
Definition invoke (m : method_obj W) (ip_addr : caller_addr) (a : call_args)
    : M (state W) pyval :=
  fun st => let '(w, r) := call m ip_addr a (world st) in
            ({| world := w; started := started st |}, r).

(** *** Envelope validation *)

Definition is_valid_request (request : pyval) : bool :=
  match request with
  | PDict d =>
      dict_only_contains d ["jsonrpc"; "method"; "params"; "id"]
      && match d !! "jsonrpc" with
         | Some (PStr v) => String.eqb v "2.0"
         | _ => false
         end
      && match d !! "method" with
         | Some (PStr _) => true
         | _ => false
         end
      && match d !! "id" with
         | None => true
         | Some (PStr _) | Some (PInt _) => true
         | Some _ => false
         end
      && match d !! "params" with
         | None => true
         | Some (PList _) | Some (PDict _) => true
         | Some _ => false
         end
  | _ => false
  end.

(** *** Parameter binding *)

(** [len(args.args) - (len(args.defaults) if args.defaults is not None else 0) - 2] *)
Definition req_args (a : ArgSpec) : Z :=
  Z.of_nat (length (args a))
  - match defaults a with
    | Some d => Z.of_nat (length d)
    | None => 0
    end
  - 2.

(** [len(params)] where [params] is a list or a dictionary. *)
Definition params_len (params : pyval) : Z :=
  match params with
  | PList l => Z.of_nat (length l)
  | PDict d => Z.of_nat (size d)
  | _ => 0
  end.

(** The flag [invalid_params] as [process_request] computes it: the length
    test, then for a dictionary the two loops over the supplied keys and
    over the required names [args.args[2 : req_args + 2]]. *)
Definition invalid_params (a : ArgSpec) (params : pyval) : bool :=
  let invalid := params_len params <? req_args a in
  match params with
  | PDict d =>
      if invalid then true
      else
        existsb (fun x => negb (bool_decide (x ∈ args a))) (map_to_list d).*1
        || existsb (fun x => negb (dict_has d x))
             (py_slice (args a) 2 (req_args a + 2))
  | _ => invalid
  end.

(** *** Single requests *)

(** [return None] for a notification, else the error envelope. *)
Definition error_or_none (error : list pyval) (req_id : pyval)
    : result (option pyval) :=
  match req_id with
  | PNone => Ret None
  | _ =>
      match return_error error req_id with
      | Ret e => Ret (Some e)
      | Raise x => Raise x
      end
  end.

(** The end of [process_request], once the handler has returned [res]. *)
Definition respond (res : pyval) (req_id : pyval) : result (option pyval) :=
  match req_id with
  | PNone => Ret None
  | _ =>
      match res with
      | PTuple t =>
          match return_error t req_id with
          | Ret e => Ret (Some e)
          | Raise x => Raise x
          end
      | _ => Ret (Some (return_result res req_id false))
      end
  end.

Definition process_request (self : JsonRpcServer W) (request : pyval)
    (ip_addr : caller_addr) : M (state W) (option pyval) :=
  if negb (is_valid_request request) then
    let! e := lift (return_error INVALID_REQUEST PNone) in ret (Some e)
  else
    match request with
    | PDict d =>
        match d !! "method" with
        | Some (PStr name) =>
            let params := default (PList []) (d !! "params") in
            let req_id := default PNone (d !! "id") in
            match methods self !! name with
            | None => lift (error_or_none METHOD_NOT_FOUND req_id)
            | Some method =>
                match original_func method with
                | None => raise AttributeError
                | Some a =>
                    if invalid_params a params then
                      lift (error_or_none INVALID_PARAMS req_id)
                    else
                      let! res := match params with
                                  | PDict kw => invoke method ip_addr (Keyword kw)
                                  | PList l => invoke method ip_addr (Positional l)
                                  | _ => raise TypeError
                                  end in
                      lift (respond res req_id)
                end
            end
        | _ => raise KeyError
        end
    | _ => raise TypeError
    end.

(** *** Batches *)

(** The loop of [process_request_list], with its accumulator [results]. *)
Fixpoint request_loop (self : JsonRpcServer W) (request : list pyval)
    (ip_addr : caller_addr) (results : list pyval) : M (state W) (list pyval) :=
  match request with
  | [] => ret results
  | single_req :: rest =>
      let! result := process_request self single_req ip_addr in
      request_loop self rest ip_addr
        (match result with
         | Some r => results ++ [r]
         | None => results
         end)
  end.

Definition process_request_list (self : JsonRpcServer W) (request : list pyval)
    (ip_addr : caller_addr) : M (state W) (option (list pyval)) :=
  let! results := request_loop self request ip_addr [] in
  if (Z.of_nat (length results) =? 0) then ret None else ret (Some results).

(** *** The transport adapter *)

Definition extra_checks (self : JsonRpcServer W) (env : environ)
    (ip_addr : caller_addr) : M (state W) (option pyval) :=
  ret None.

(** The caller address: [ipaddress.ip_address(env['REMOTE_ADDR']).packed]
    when the key is present, else [None]. *)
Definition remote_addr (env : environ) : result caller_addr :=
  match REMOTE_ADDR env with
  | Some a =>
      match ip_address_packed a with
      | Some packed => Ret (Some packed)
      | None => Raise ValueError
      end
  | None => Ret None
  end.

(** The body of the [try] block:
    [json.loads(env['wsgi.input'].read().decode('utf-8'))]. *)
Definition read_request (env : environ) : result pyval :=
  match utf8_decode (wsgi_input env) with
  | Some text => json_loads text
  | None => Raise ValueError
  end.

(** The header list built at the start of [process_call].  With an
    allowed-origins configuration the value appended is read from the
    attribute [allowed_origin], and reading an attribute the instance does
    not have raises [AttributeError]. *)
Definition response_headers (self : JsonRpcServer W) : result header_list :=
  let headers := [("Content-Type", "application/json-rpc")] in
  match allowed_origins self with
  | Some _ =>
      match attributes self !! "allowed_origin" with
      | Some allowed_origin =>
          Ret (headers ++ [("Access-Control-Allow-Origin", allowed_origin)])
      | None => Raise AttributeError
      end
  | None => Ret headers
  end.

Definition process_call (self : JsonRpcServer W) (env : environ)
    : M (state W) (option pyval) :=
  let! headers := lift (response_headers self) in
  if negb (String.eqb (REQUEST_METHOD env) "POST") then
    let headers := headers ++ [("Allow", "POST")] in
    if String.eqb (REQUEST_METHOD env) "OPTIONS" then
      let headers :=
        headers ++ [("Access-Control-Allow-Headers",
                     "Content-Type, Accept, Content-Length, Host, Origin, User-Agent, Referer")] in
      start_response HTTP_OK headers >> ret None
    else
      start_response HTTP_METHOD_NOT_ALLOWED headers >>
      let! e := lift (return_error ONLY_POST_ALLOWED PNone) in ret (Some e)
  else if match CONTENT_TYPE env with
          | None => true
          | Some ct => not_valid_content_type ct
          end then
    start_response HTTP_UNSUPPORTED_MEDIA headers >>
    let! e := lift (return_error BAD_CONTENT_TYPE PNone) in ret (Some e)
  else if match HTTP_ACCEPT env with
          | None => false
          | Some accept => not_valid_content_type accept
          end then
    start_response HTTP_NOT_ACCEPTABLE headers >>
    let! e := lift (return_error BAD_ACCEPT PNone) in ret (Some e)
  else
    let! ip_addr := lift (remote_addr env) in
    let! resp := extra_checks self env ip_addr in
    match resp with
    | Some r => ret (Some r)
    | None =>
        match read_request env with
        | Raise ValueError =>
            (* except ValueError *)
            start_response HTTP_BAD_REQUEST headers >>
            let! e := lift (return_error PARSE_ERROR PNone) in ret (Some e)
        | Raise e => raise e
        | Ret request =>
            let! result :=
              match request with
              | PList l =>
                  let! rs := process_request_list self l ip_addr in
                  ret (PList <$> rs)
              | _ => process_request self request ip_addr
              end in
            match result with
            | None => start_response HTTP_NO_CONTENT [] >> ret result
            | Some _ => start_response HTTP_OK headers >> ret result
            end
        end
    end.

(** [__call__]: the body chunks handed back to the WSGI gateway. *)
Definition call_server (self : JsonRpcServer W) (env : environ)
    : M (state W) (list (list byte)) :=
  let! result := process_call self env in
  ret [match result with
       | None => []
       | Some r => json_dumps r
       end].

End Server.

(** ** Spec-level descriptions, to compare with the code *)

(** Running [f] over a list inside the monad, left to right. *)
Fixpoint mapM {S A B} (f : A → M S B) (l : list A) : M S (list B) :=
  match l with
  | [] => ret []
  | x :: xs =>
      let! y := f x in
      let! ys := mapM f xs in
      ret (y :: ys)
  end.

Section Descriptions.

Context {W : Type}.

(** A batch as the specification words it: every element is processed in
    order, the suppressed entries are dropped, and an empty output is
    "no content". *)
Definition batch_responses (self : JsonRpcServer W) (request : list pyval)
    (ip_addr : caller_addr) : M (state W) (option (list pyval)) :=
  let! rs := mapM (fun q => process_request self q ip_addr) request in
  ret (match omap id rs with
       | [] => None
       | out => Some out
       end).

(** A batch that runs to its end: the requests are processed one after the
    other, each from the state the one before left, each returns, and [rs]
    lists what they return, in order. *)
Inductive batch_run (self : JsonRpcServer W) (ip_addr : caller_addr)
    : state W → list pyval → list (option pyval) → state W → Prop :=
| batch_run_nil st : batch_run self ip_addr st [] [] st
| batch_run_cons st q st1 r rest rs st2 :
    process_request self q ip_addr st = (st1, Ret r) →
    batch_run self ip_addr st1 rest rs st2 →
    batch_run self ip_addr st (q :: rest) (r :: rs) st2.

(** The responses among [rs], in order, or no content when there is none. *)
Definition batch_output (rs : list (option pyval)) : option (list pyval) :=
  match omap id rs with
  | [] => None
  | out => Some out
  end.

(** The envelope faults of the specification's validity rule. *)
Definition is_str_or_int (v : pyval) : Prop :=
  match v with
  | PStr _ | PInt _ => True
  | _ => False
  end.

Definition is_seq_or_map (v : pyval) : Prop :=
  match v with
  | PList _ | PDict _ => True
  | _ => False
  end.

Definition envelope_fault (request : pyval) : Prop :=
  match request with
  | PDict d =>
      (∃ k, is_Some (d !! k) ∧ k ∉ ["jsonrpc"; "method"; "params"; "id"])
      ∨ d !! "jsonrpc" ≠ Some (PStr "2.0")
      ∨ (∀ name, d !! "method" ≠ Some (PStr name))
      ∨ (∃ v, d !! "id" = Some v ∧ ¬ is_str_or_int v)
      ∨ (∃ v, d !! "params" = Some v ∧ ¬ is_seq_or_map v)
  | _ => True
  end.

(** The content types the specification accepts: one of the three media
    types, alone or followed by [;] and one parameter that, once stripped,
    starts with [charset=]. *)
Definition accepted_content_type (ct : string) : Prop :=
  ∃ base, base ∈ json_media_types
    ∧ (ct = base
       ∨ ∃ p, ct = base +:+ ";" +:+ p
              ∧ PyStr.contains ";" p = false
              ∧ PyStr.take 8 (PyStr.strip p) = "charset=").


(** The required count in the specification's words: the declared
    parameters without a default (defaults belong to the last parameters),
    counted, less the two leading ones. *)
Definition parameters_without_default (a : ArgSpec) : list string :=
  take (length (args a) - length (default [] (defaults a))) (args a).

Definition required_count (a : ArgSpec) : Z :=
  Z.of_nat (length (parameters_without_default a)) - 2.


(** The POST calls that get past the method, Content-Type and Accept checks. *)
Definition passes_header_checks (env : environ) : Prop :=
  REQUEST_METHOD env = "POST"
  ∧ (∃ ct, CONTENT_TYPE env = Some ct ∧ not_valid_content_type ct = false)
  ∧ (∀ accept, HTTP_ACCEPT env = Some accept → not_valid_content_type accept = false).

(** The dictionaries of the wire format, written out member by member:
    [{"code": code, "message": message}],
    [{"jsonrpc": "2.0", "error": {"code": .., "message": ..}, "id": rid}] and
    [{"jsonrpc": "2.0", "result": res, "id": rid}]. *)
Definition error_data (code message : pyval) : pyval :=
  PDict (list_to_map [("code", code); ("message", message)]).

Definition error_envelope (code message rid : pyval) : pyval :=
  PDict (list_to_map
           [("jsonrpc", PStr "2.0");
            ("error", PDict (list_to_map [("code", code); ("message", message)]));
            ("id", rid)]).

Definition result_envelope (res rid : pyval) : pyval :=
  PDict (list_to_map [("jsonrpc", PStr "2.0"); ("result", res); ("id", rid)]).

(** What the caller gets once a handler has returned [res] on a request
    with id [rid]: an error envelope from the first two elements of a
    tuple, [IndexError] for a shorter tuple, a success envelope for any
    other value. *)
Definition handler_response (res rid : pyval) : result (option pyval) :=
  match res with
  | PTuple (code :: message :: _) => Ret (Some (error_envelope code message rid))
  | PTuple _ => Raise IndexError
  | _ => Ret (Some (result_envelope res rid))
  end.

Definition has_key (k : string) (envelope : pyval) : Prop :=
  match envelope with
  | PDict d => is_Some (d !! k)
  | _ => False
  end.

Definition record_response (status : string) (headers : header_list)
    (st : state W) : state W :=
  {| world := world st; started := started st ++ [(status, headers)] |}.

Definition with_world (w : W) (st : state W) : state W :=
  {| world := w; started := started st |}.

(** The parameters and the id [process_request] reads off a request. *)
Definition request_params (d : gmap string pyval) : pyval :=
  default (PList []) (d !! "params").

Definition request_id (d : gmap string pyval) : pyval :=
  default PNone (d !! "id").

(** The arguments a handler receives after the two leading ones. *)
Definition call_args_of (params : pyval) : option call_args :=
  match params with
  | PList l => Some (Positional l)
  | PDict kw => Some (Keyword kw)
  | _ => None
  end.

(** [process_request] from the handler call on: the handler's outcome [o]
    on the state, then the response for request id [rid]. *)
Definition after_call (st : state W) (rid : pyval) (o : W * result pyval)
    : state W * result (option pyval) :=
  match o with
  | (w, Ret res) => (with_world w st, handler_response res rid)
  | (w, Raise e) => (with_world w st, Raise e)
  end.

(** The header list of a server without an allowed-origins configuration. *)
Definition base_headers : header_list :=
  [("Content-Type", "application/json-rpc")].

(** The responses a call may start once its Content-Type has passed. *)
Definition later_statuses : list string :=
  [HTTP_NOT_ACCEPTABLE; HTTP_BAD_REQUEST; HTTP_NO_CONTENT; HTTP_OK].

(** A valid request that names a registered method. *)
Definition names_method (self : JsonRpcServer W) (d : gmap string pyval)
    (method : method_obj W) : Prop :=
  is_valid_request (PDict d) = true
  ∧ ∃ name, d !! "method" = Some (PStr name) ∧ methods self !! name = Some method.

(** A string made of whitespace only. *)
Fixpoint all_space (s : string) : bool :=
  match s with
  | EmptyString => true
  | String c s' => PyStr.isspace c && all_space s'
  end.

(** The id a response to [request] carries: the request's own id when the
    request is valid, null otherwise. *)
Definition response_id (request : pyval) : pyval :=
  match request with
  | PDict d => if is_valid_request request then request_id d else PNone
  | _ => PNone
  end.

(** A well-formed response envelope under id [rid]: the version member, the
    id, and exactly one of result and error. *)
Definition response_envelope (rid : pyval) (v : pyval) : Prop :=
  ∃ e, v = PDict e
       ∧ e !! "jsonrpc" = Some (PStr "2.0")
       ∧ e !! "id" = Some rid
       ∧ (is_Some (e !! "result") ↔ ¬ is_Some (e !! "error")).

(** Two batch outputs put together. *)
Definition join_outputs (o1 o2 : option (list pyval)) : option (list pyval) :=
  match default [] o1 ++ default [] o2 with
  | [] => None
  | out => Some out
  end.

(** The headers of the preflight response and of the 405 response. *)
Definition allow_post (headers : header_list) : header_list :=
  headers ++ [("Allow", "POST")].

Definition preflight_headers (headers : header_list) : header_list :=
  allow_post headers
  ++ [("Access-Control-Allow-Headers",
       "Content-Type, Accept, Content-Length, Host, Origin, User-Agent, Referer")].

(** The statuses of the responses that carry an error or a result. *)
Definition body_statuses : list string :=
  [HTTP_OK; HTTP_BAD_REQUEST; HTTP_METHOD_NOT_ALLOWED; HTTP_NOT_ACCEPTABLE;
   HTTP_UNSUPPORTED_MEDIA].

End Descriptions.

(** ** A small server, for examples *)

Module Examples.

(** The handlers' state counts the calls made. *)
Definition add_call (ip : caller_addr) (a : call_args) (w : nat)
    : nat * result pyval :=
  match a with
  | Positional [PInt x; PInt y] => (S w, Ret (PInt (x + y)))
  | Keyword kw =>
      match kw !! "a", kw !! "b" with
      | Some (PInt x), Some (PInt y) =>
          if bool_decide (size kw = 2%nat) then (S w, Ret (PInt (x + y)))
          else (w, Raise TypeError)
      | _, _ => (w, Raise TypeError)
      end
  | _ => (w, Raise TypeError)
  end.

(** [def add(server, ip_addr, a, b)], wrapped with an [original_func]. *)
Definition add_method : method_obj nat :=
  {| callable := true;
     own_args := ["server"; "ip_addr"; "a"; "b"];
     original_func :=
       Some {| args := ["server"; "ip_addr"; "a"; "b"]; defaults := None |};
     call := add_call |}.

(** A handler that returns a tuple of three elements. *)
Definition triple_method : method_obj nat :=
  {| callable := true;
     own_args := ["server"; "ip_addr"];
     original_func := Some {| args := ["server"; "ip_addr"]; defaults := None |};
     call := fun _ _ w => (S w, Ret (PTuple [PInt 7; PStr "boom"; PNone])) |}.

(** A handler that returns a (code, message) pair. *)
Definition refuse_method : method_obj nat :=
  {| callable := true;
     own_args := ["server"; "ip_addr"];
     original_func := Some {| args := ["server"; "ip_addr"]; defaults := None |};
     call := fun _ _ w => (S w, Ret (PTuple [PInt 7; PStr "boom"])) |}.

(** A plain function registered as it is: no [original_func] attribute. *)
Definition bare_method : method_obj nat :=
  {| callable := true;
     own_args := ["server"; "ip_addr"];
     original_func := None;
     call := fun _ _ w => (S w, Ret PNone) |}.

Definition example_methods : gmap string (method_obj nat) :=
  <["add" := add_method]>
    (<["triple" := triple_method]>
      (<["refuse" := refuse_method]>
        (<["bare" := bare_method]> ∅))).

Definition server : JsonRpcServer nat :=
  {| methods := example_methods; allowed_origins := None; attributes := ∅ |}.

Definition cors_server : JsonRpcServer nat :=
  {| methods := example_methods; allowed_origins := Some "*";
     attributes := ∅ |}.

Definition st0 : state nat := {| world := 0%nat; started := [] |}.

(** [n] copies of [c] before [tail]. *)
Fixpoint repeat_char (c : ascii) (n : nat) (tail : string) : string :=
  match n with
  | O => tail
  | S n' => String c (repeat_char c n' tail)
  end.

(** A body nested 2000 arrays deep, past the interpreter's default
    recursion limit of 1000: [json.loads] gives up on it with
    [RecursionError]. *)
Definition deep_text : string :=
  repeat_char "[" (Z.to_nat 2000) (repeat_char "]" (Z.to_nat 2000) EmptyString).

(** The text of a batch of three: [add(1, 1)] with id 7, [add(2, 2)] as a
    notification, [add(2, 3)] with id 1. *)
Definition dq : string := String (ascii_of_nat 34) EmptyString.

Definition member (key value : string) : string :=
  dq +:+ key +:+ dq +:+ ":" +:+ value.

Definition quoted (text : string) : string := dq +:+ text +:+ dq.

Definition batch_text : string :=
  "[{" +:+ member "jsonrpc" (quoted "2.0") +:+ ","
       +:+ member "method" (quoted "add") +:+ ","
       +:+ member "params" "[1,1]" +:+ ","
       +:+ member "id" "7" +:+ "},{"
       +:+ member "jsonrpc" (quoted "2.0") +:+ ","
       +:+ member "method" (quoted "add") +:+ ","
       +:+ member "params" "[2,2]" +:+ "},{"
       +:+ member "jsonrpc" (quoted "2.0") +:+ ","
       +:+ member "method" (quoted "add") +:+ ","
       +:+ member "params" "[2,3]" +:+ ","
       +:+ member "id" "1" +:+ "}]".

Definition batch_requests : list pyval :=
  [PDict (<["jsonrpc" := PStr "2.0"]>
           (<["method" := PStr "add"]>
             (<["params" := PList [PInt 1; PInt 1]]> (<["id" := PInt 7]> ∅))));
   PDict (<["jsonrpc" := PStr "2.0"]>
           (<["method" := PStr "add"]>
             (<["params" := PList [PInt 2; PInt 2]]> ∅)));
   PDict (<["jsonrpc" := PStr "2.0"]>
           (<["method" := PStr "add"]>
             (<["params" := PList [PInt 2; PInt 3]]> (<["id" := PInt 1]> ∅))))].

Definition batch_value : pyval := PList batch_requests.

(** Library functions, defined on the inputs the examples use: ASCII
    text, the JSON documents of the examples (any other text counts as
    malformed), and the loopback address. *)
Definition ascii_decode (b : list byte) : option string :=
  if forallb (fun c => (Z.of_N (Byte.to_N c) <? 128)) b
  then Some (String.string_of_list_byte b) else None.

Definition loads_table (text : string) : result pyval :=
  if String.eqb text "[]" then Ret (PList [])
  else if String.eqb text "[1, 2]" then Ret (PList [PInt 1; PInt 2])
  else if String.eqb text "1" then Ret (PInt 1)
  else if String.eqb text batch_text then Ret batch_value
  else if String.eqb text deep_text then Raise RecursionError
  else Raise ValueError.

Definition dumps_stub (v : pyval) : list byte :=
  match v with
  | PList [] => String.list_byte_of_string "[]"
  | _ => String.list_byte_of_string "..."
  end.

Definition packed_table (a : string) : option (list byte) :=
  if String.eqb a "127.0.0.1" then Some [x7f; x00; x00; x01] else None.

#[export] Instance example_lib : PyLib :=
  {| utf8_decode := ascii_decode;
     json_loads := loads_table;
     json_dumps := dumps_stub;
     ip_address_packed := packed_table |}.

Definition post (content_type : option string) (body : string) : environ :=
  {| REQUEST_METHOD := "POST";
     CONTENT_TYPE := content_type;
     HTTP_ACCEPT := None;
     REMOTE_ADDR := Some "127.0.0.1";
     wsgi_input := String.list_byte_of_string body |}.

(** Requests of the examples. *)

(** [{"method": "add", "params": [1, 2], "id": 1}]: no jsonrpc member. *)
Definition missing_version : pyval :=
  PDict (<["method" := PStr "add"]>
         (<["params" := PList [PInt 1; PInt 2]]> (<["id" := PInt 1]> ∅))).

(** [{"method": "add"}]: no jsonrpc member and no id. *)
Definition missing_version_and_id : gmap string pyval :=
  <["method" := PStr "add"]> ∅.

Definition add_2_3 : gmap string pyval :=
  <["jsonrpc" := PStr "2.0"]>
    (<["method" := PStr "add"]>
      (<["params" := PList [PInt 2; PInt 3]]> (<["id" := PInt 1]> ∅))).

(** The batch of scenario 5: a request with id 7 and a notification. *)
Definition add_1_1 : gmap string pyval :=
  <["jsonrpc" := PStr "2.0"]>
    (<["method" := PStr "add"]>
      (<["params" := PList [PInt 1; PInt 1]]> (<["id" := PInt 7]> ∅))).

Definition notify_2_2 : gmap string pyval :=
  <["jsonrpc" := PStr "2.0"]>
    (<["method" := PStr "add"]> (<["params" := PList [PInt 2; PInt 2]]> ∅)).

Definition notify_add : gmap string pyval :=
  <["jsonrpc" := PStr "2.0"]>
    (<["method" := PStr "add"]> (<["params" := PList [PInt 1; PInt 2]]> ∅)).

Definition add_one_value : gmap string pyval :=
  <["jsonrpc" := PStr "2.0"]>
    (<["method" := PStr "add"]>
      (<["params" := PList [PInt 1]]> (<["id" := PInt 1]> ∅))).


Definition add_a_b : gmap string pyval :=
  <["jsonrpc" := PStr "2.0"]>
    (<["method" := PStr "add"]>
      (<["params" := PDict (<["a" := PInt 2]> (<["b" := PInt 3]> ∅))]>
        (<["id" := PInt 1]> ∅))).

Definition call_of (name : string) : gmap string pyval :=
  <["jsonrpc" := PStr "2.0"]>
    (<["method" := PStr name]> (<["id" := PInt 1]> ∅)).

Definition add_spec : ArgSpec :=
  {| args := ["server"; "ip_addr"; "a"; "b"]; defaults := None |}.

Definition no_params_spec : ArgSpec :=
  {| args := ["server"; "ip_addr"]; defaults := None |}.

Definition loopback : caller_addr := Some [x7f; x00; x00; x01].

(** A handler that raises, and one that returns a tuple of one element. *)
Definition raising_method : method_obj nat :=
  {| callable := true;
     own_args := ["server"; "ip_addr"];
     original_func := Some no_params_spec;
     call := fun _ _ w => (S w, Raise (HandlerError "boom")) |}.

Definition short_tuple_method : method_obj nat :=
  {| callable := true;
     own_args := ["server"; "ip_addr"];
     original_func := Some no_params_spec;
     call := fun _ _ w => (S w, Ret (PTuple [PInt 7])) |}.

(** An object that is not callable, and a function without parameters. *)
Definition not_callable : method_obj nat :=
  {| callable := false;
     own_args := [];
     original_func := None;
     call := fun _ _ w => (w, Raise TypeError) |}.

Definition faulty_methods : gmap string (method_obj nat) :=
  <["raise" := raising_method]>
    (<["short" := short_tuple_method]> (<["add" := add_method]> ∅)).

Definition faulty_server : JsonRpcServer nat :=
  {| methods := faulty_methods; allowed_origins := None; attributes := ∅ |}.

(** [def scale(server, ip_addr, x, factor=2)]: one parameter with a default. *)
Definition scale_spec : ArgSpec :=
  {| args := ["server"; "ip_addr"; "x"; "factor"]; defaults := Some [PInt 2] |}.

Definition scale_call (ip : caller_addr) (a : call_args) (w : nat)
    : nat * result pyval :=
  match a with
  | Positional [PInt x] => (S w, Ret (PInt (x * 2)))
  | Positional [PInt x; PInt factor] => (S w, Ret (PInt (x * factor)))
  | _ => (w, Raise TypeError)
  end.

Definition scale_method : method_obj nat :=
  {| callable := true;
     own_args := ["server"; "ip_addr"; "x"; "factor"];
     original_func := Some scale_spec;
     call := scale_call |}.

Definition scaling_server : JsonRpcServer nat :=
  {| methods := <["scale" := scale_method]> ∅; allowed_origins := None;
     attributes := ∅ |}.

Definition scale_with (params : list pyval) : gmap string pyval :=
  <["jsonrpc" := PStr "2.0"]>
    (<["method" := PStr "scale"]>
      (<["params" := PList params]> (<["id" := PInt 1]> ∅))).

Definition notify_of (name : string) : gmap string pyval :=
  <["jsonrpc" := PStr "2.0"]> (<["method" := PStr name]> ∅).

(** Environments of other calls. *)
Definition with_method (method : string) (content_type : option string)
    : environ :=
  {| REQUEST_METHOD := method;
     CONTENT_TYPE := content_type;
     HTTP_ACCEPT := None;
     REMOTE_ADDR := Some "127.0.0.1";
     wsgi_input := [] |}.

Definition post_accepting (accept : string) : environ :=
  {| REQUEST_METHOD := "POST";
     CONTENT_TYPE := Some "application/json";
     HTTP_ACCEPT := Some accept;
     REMOTE_ADDR := Some "127.0.0.1";
     wsgi_input := String.list_byte_of_string "[]" |}.

Definition post_from (addr : string) (body : string) : environ :=
  {| REQUEST_METHOD := "POST";
     CONTENT_TYPE := Some "application/json";
     HTTP_ACCEPT := None;
     REMOTE_ADDR := Some addr;
     wsgi_input := String.list_byte_of_string body |}.

End Examples.

(** ** Properties *)

Section Properties.

Context {W : Type} {lib : PyLib}.

Implicit Types (self : JsonRpcServer W) (st : state W) (d kw : gmap string pyval).

(** *** Dictionaries *)

Lemma elem_of_dict_keys d k : k ∈ (map_to_list d).*1 ↔ is_Some (d !! k).
Proof.
  rewrite list_elem_of_fmap. split.
  - intros [[k' v] [-> Hin]]. apply elem_of_map_to_list in Hin. by exists v.
  - intros [v Hv]. exists (k, v). split; [done|]. by apply elem_of_map_to_list.
Qed.

Lemma dict_only_contains_true d keys :
  dict_only_contains d keys = true ↔ ∀ k, is_Some (d !! k) → k ∈ keys.
Proof.
  unfold dict_only_contains. rewrite forallb_forall. split.
  - intros Hall k Hk. apply elem_of_dict_keys, list_elem_of_In in Hk.
    apply Hall in Hk. by apply bool_decide_eq_true in Hk.
  - intros Hall k Hk. apply bool_decide_eq_true, Hall, elem_of_dict_keys.
    by apply list_elem_of_In.
Qed.

Lemma dict_only_contains_false d keys :
  dict_only_contains d keys = false ↔ ∃ k, is_Some (d !! k) ∧ k ∉ keys.
Proof.
  split.
  - intros Hf.
    destruct (decide (Exists (λ k, k ∉ keys) (map_to_list d).*1)) as [Hex|Hnex].
    + apply Exists_exists in Hex as (k & Hk & Hnot).
      exists k. split; [by apply elem_of_dict_keys | done].
    + exfalso. apply not_true_iff_false in Hf. apply Hf.
      apply dict_only_contains_true. intros k Hk.
      destruct (decide (k ∈ keys)) as [|Hn]; [done|].
      exfalso. apply Hnex, Exists_exists. exists k.
      split; [by apply elem_of_dict_keys | done].
  - intros (k & Hk & Hnot). apply not_true_iff_false. intros Ht.
    apply Hnot. by eapply dict_only_contains_true.
Qed.

(** *** Envelope validation *)

Lemma envelope_fault_invalid request :
  envelope_fault request → is_valid_request request = false.
Proof.
  destruct request as [| | | | | | |d]; try done.
  simpl. intros Hfault. apply not_true_iff_false. intros Hv.
  apply andb_prop in Hv as [Hv Hparams].
  apply andb_prop in Hv as [Hv Hid].
  apply andb_prop in Hv as [Hv Hmethod].
  apply andb_prop in Hv as [Hkeys Hver].
  destruct Hfault as [(k & Hk & Hnot)|[Hj|[Hm|[(v & Hv & Hn)|(v & Hv & Hn)]]]].
  - apply Hnot. by eapply dict_only_contains_true.
  - destruct (d !! "jsonrpc") as [[| | | |v| | |]|]; try done.
    apply String.eqb_eq in Hver. by subst.
  - destruct (d !! "method") as [[| | | |name| | |]|]; try done.
    by apply (Hm name).
  - rewrite Hv in Hid. by destruct v.
  - rewrite Hv in Hparams. by destruct v.
Qed.

Lemma invalid_envelope_fault request :
  is_valid_request request = false → envelope_fault request.
Proof.
  destruct request as [| | | | | | |d]; try done.
  simpl. intros Hf.
  destruct (dict_only_contains d _) eqn:Hkeys; simpl in Hf.
  2: { left. by apply dict_only_contains_false. }
  right.
  destruct (d !! "jsonrpc") as [vj|] eqn:Hj; [|by left].
  destruct vj as [| | | |v| | |]; try by left.
  destruct (String.eqb v "2.0") eqn:Hver; simpl in Hf.
  2: { left. intros Heq. by simplify_eq. }
  apply String.eqb_eq in Hver as ->.
  right.
  destruct (d !! "method") as [vm|] eqn:Hm; [|by left].
  destruct vm as [| | | |name| | |]; try by left.
  right. simpl in Hf.
  destruct (d !! "id") as [vi|] eqn:Hi.
  - destruct vi; simpl in Hf; try (left; eexists; split; [reflexivity|]; simpl; tauto);
      right; (destruct (d !! "params") as [vp|] eqn:Hp; [|done]);
      exists vp; (split; [done|]); destruct vp; simpl in *; (done || tauto).
  - right. simpl in Hf.
    destruct (d !! "params") as [vp|] eqn:Hp; [|done].
    exists vp. split; [done|]. destruct vp; simpl in *; (done || tauto).
Qed.

Lemma valid_request_id d :
  is_valid_request (PDict d) = true →
  d !! "id" = None ∨ ∃ v, d !! "id" = Some v ∧ is_str_or_int v ∧ v ≠ PNone.
Proof.
  simpl. intros Hv.
  apply andb_prop in Hv as [Hv _]. apply andb_prop in Hv as [_ Hid].
  destruct (d !! "id") as [v|]; [right|by left].
  exists v. by destruct v.
Qed.

Lemma valid_request_params d :
  is_valid_request (PDict d) = true →
  (∃ l, request_params d = PList l) ∨ (∃ kw, request_params d = PDict kw).
Proof.
  simpl. intros Hv. apply andb_prop in Hv as [_ Hp]. unfold request_params.
  destruct (d !! "params") as [v|]; simpl; [|by left; exists []].
  destruct v; try done; [left|right]; by eexists.
Qed.

(** The body of [process_request] once validation and lookup succeeded. *)
Lemma process_request_bound self d method a ip :
  names_method self d method →
  original_func method = Some a →
  process_request self (PDict d) ip
  = if invalid_params a (request_params d) then
      lift (error_or_none INVALID_PARAMS (request_id d))
    else
      let! res := match request_params d with
                  | PDict kw => invoke method ip (Keyword kw)
                  | PList l => invoke method ip (Positional l)
                  | _ => raise TypeError
                  end in
      lift (respond res (request_id d)).
Proof.
  intros [Hv (name & Hname & Hm)] Ho. unfold process_request.
  rewrite Hv, Hname, Hm, Ho. reflexivity.
Qed.

Lemma process_request_unknown self d name ip :
  is_valid_request (PDict d) = true →
  d !! "method" = Some (PStr name) →
  methods self !! name = None →
  process_request self (PDict d) ip
  = lift (error_or_none METHOD_NOT_FOUND (request_id d)).
Proof.
  intros Hv Hname Hm. unfold process_request.
  rewrite Hv, Hname, Hm. reflexivity.
Qed.

Lemma invoke_eq (method : method_obj W) ip cargs st w r :
  call method ip cargs (world st) = (w, r) →
  invoke method ip cargs st = (with_world w st, r).
Proof. intros Hc. unfold invoke. by rewrite Hc. Qed.

(** A handler called on the parameters of a valid request. *)
Lemma process_request_invoked self d method a ip cargs st w r :
  names_method self d method →
  original_func method = Some a →
  invalid_params a (request_params d) = false →
  call_args_of (request_params d) = Some cargs →
  call method ip cargs (world st) = (w, r) →
  process_request self (PDict d) ip st
  = match r with
    | Ret res => (with_world w st, respond res (request_id d))
    | Raise e => (with_world w st, Raise e)
    end.
Proof.
  intros Hn Ho Hi Hc Hcall.
  rewrite (process_request_bound _ _ _ _ _ Hn Ho), Hi. unfold bind.
  destruct (request_params d); simplify_eq/=;
    rewrite (invoke_eq _ _ _ _ _ _ Hcall); by destruct r.
Qed.

(** *** Splitting a header value *)

Lemma split_on_nonempty sep s : PyStr.split_on sep s ≠ [].
Proof.
  destruct s as [|c s]; simpl; [done|].
  destruct (Ascii.eqb c sep); [done|]. by destruct (PyStr.split_on sep s).
Qed.

Lemma split_on_join sep s : PyStr.join_with sep (PyStr.split_on sep s) = s.
Proof.
  induction s as [|c s IH]; simpl; [done|].
  destruct (Ascii.eqb_spec c sep) as [->|Hne].
  - pose proof (split_on_nonempty sep s).
    destruct (PyStr.split_on sep s) as [|p rest] eqn:Hs; [done|].
    simpl in *. by rewrite IH.
  - pose proof (split_on_nonempty sep s).
    destruct (PyStr.split_on sep s) as [|p rest] eqn:Hs; [done|].
    destruct rest; simpl in *; by rewrite <- IH.
Qed.

Lemma split_on_pieces sep s :
  Forall (λ p, PyStr.contains sep p = false) (PyStr.split_on sep s).
Proof.
  induction s as [|c s IH]; simpl; [by constructor|].
  destruct (Ascii.eqb c sep) eqn:Hc; [by constructor|].
  destruct (PyStr.split_on sep s) as [|p rest]; simpl.
  - constructor; [|done]. simpl. by rewrite Hc.
  - inversion IH as [|? ? Hp Hrest]; subst.
    constructor; [|done]. simpl. by rewrite Hc, Hp.
Qed.

Lemma split_on_no_sep sep p :
  PyStr.contains sep p = false → PyStr.split_on sep p = [p].
Proof.
  induction p as [|c p IH]; simpl; [done|].
  intros Hc. apply orb_false_elim in Hc as [Hc Hp].
  by rewrite Hc, (IH Hp).
Qed.

Lemma split_on_app sep a p :
  PyStr.contains sep a = false →
  PyStr.split_on sep (a +:+ String sep p) = a :: PyStr.split_on sep p.
Proof.
  induction a as [|c a IH]; simpl.
  - intros _. by rewrite Ascii.eqb_refl.
  - intros Hc. apply orb_false_elim in Hc as [Hc Ha].
    by rewrite Hc, (IH Ha).
Qed.

Lemma media_types_no_semicolon base :
  base ∈ json_media_types → PyStr.contains ";" base = false.
Proof.
  unfold json_media_types. rewrite !elem_of_cons, elem_of_nil.
  by intros [->|[->|[->|[]]]].
Qed.

(** The code's check accepts exactly the content types of the
    specification. *)
Lemma not_valid_content_type_false ct :
  not_valid_content_type ct = false ↔ accepted_content_type ct.
Proof.
  unfold not_valid_content_type, accepted_content_type. split.
  - pose proof (split_on_join ";" ct) as Hjoin.
    pose proof (split_on_pieces ";" ct) as Hpieces.
    destruct (PyStr.split_on ";" ct) as [|base [|p [|q rest]]] eqn:Hs;
      [|simpl..|].
    + by destruct (split_on_nonempty ";" ct).
    + intros Hin. apply negb_false_iff, bool_decide_eq_true in Hin.
      exists base. split; [done|]. left. by rewrite <- Hjoin.
    + destruct (String.eqb_spec (PyStr.take 8 (PyStr.strip p)) "charset=")
        as [Hcs|Hcs]; simpl; [|done].
      intros Hin. apply negb_false_iff, bool_decide_eq_true in Hin.
      exists base. split; [done|]. right. exists p.
      apply Forall_cons in Hpieces as [_ Hrest].
      apply Forall_cons in Hrest as [Hp _].
      by rewrite <- Hjoin.
    + destruct (Z.ltb_spec 2 (Z.of_nat (length (base :: p :: q :: rest))))
        as [_|Hle]; [done|]. simpl length in Hle. lia.
  - intros (base & Hin & [->|(p & -> & Hp & Hcs)]).
    + rewrite (split_on_no_sep _ _ (media_types_no_semicolon _ Hin)). simpl.
      by apply negb_false_iff, bool_decide_eq_true.
    + change (base +:+ ";" +:+ p) with (base +:+ String ";" p).
      rewrite (split_on_app _ _ _ (media_types_no_semicolon _ Hin)).
      rewrite (split_on_no_sep _ _ Hp). simpl. rewrite Hcs. simpl.
      by apply negb_false_iff, bool_decide_eq_true.
Qed.

(** *** Parameter binding *)

Lemma invalid_params_list a l :
  invalid_params a (PList l) = true ↔ Z.of_nat (length l) < req_args a.
Proof. simpl. apply Z.ltb_lt. Qed.

Lemma req_args_le_declared a :
  req_args a ≤ Z.of_nat (length (args a)) - 2.
Proof. unfold req_args. destruct (defaults a); lia. Qed.








(** *** Claims *)

(** Claim C2.  A request object that fails envelope validation (it is not a
    mapping, has a key outside jsonrpc/method/params/id, its jsonrpc is not
    "2.0", its method is missing or not a string, its id is present and
    neither a string nor an integer, or its params is present and neither a
    sequence nor a mapping) is rejected by [is_valid_request], and
    [process_request] returns the Invalid Request (-32600) error envelope
    with a null id, whether or not the request had an id. *)
Theorem invalid_envelope_yields_invalid_request self request ip st :
  envelope_fault request →
  is_valid_request request = false
  ∧ process_request self request ip st
    = (st, Ret (Some (error_envelope (PInt (-32600)) (PStr "Invalid Request")
                        PNone)))
  ∧ ∃ envelope error,
      process_request self request ip st = (st, Ret (Some (PDict envelope)))
      ∧ envelope !! "jsonrpc" = Some (PStr "2.0")
      ∧ envelope !! "id" = Some PNone
      ∧ envelope !! "result" = None
      ∧ envelope !! "error" = Some (PDict error)
      ∧ error !! "code" = Some (PInt (-32600))
      ∧ error !! "message" = Some (PStr "Invalid Request").
Proof.
  intros Hf. pose proof (envelope_fault_invalid _ Hf) as Hinv.
  assert (process_request self request ip st
          = (st, Ret (Some (error_envelope (PInt (-32600))
                              (PStr "Invalid Request") PNone)))) as Hr.
  { unfold process_request. rewrite Hinv. reflexivity. }
  split; [done|]. split; [done|].
  eexists _, _. split; [exact Hr|]. by simplify_map_eq.
Qed.

(** Registration checks the method object only: it is callable and its own
    signature has a parameter.  The [original_func] attribute is not looked
    at. *)
Lemma init_accepts_iff (ms : gmap string (method_obj W)) ao :
  init ms ao = Ret {| methods := ms; allowed_origins := ao; attributes := ∅ |}
  ↔ ∀ name m, ms !! name = Some m →
              callable m = true ∧ (1 ≤ length (own_args m))%nat.
Proof.
  unfold init.
  destruct (forallb _ _) eqn:Hall.
  - split; [intros _|done]. intros name m Hm.
    rewrite forallb_forall in Hall.
    assert (In m (map_to_list ms).*2) as Hin.
    { apply list_elem_of_In, list_elem_of_fmap. exists (name, m).
      split; [done|]. by apply elem_of_map_to_list. }
    apply Hall, andb_prop in Hin as [Hc Hl]. split; [done|].
    apply Z.leb_le in Hl. lia.
  - split; [done|]. intros Hok. exfalso.
    apply not_true_iff_false in Hall. apply Hall, forallb_forall.
    intros m Hin. apply list_elem_of_In, list_elem_of_fmap in Hin
      as [[name m'] [-> Hin]].
    apply elem_of_map_to_list, Hok in Hin as [Hc Hl].
    simpl. rewrite Hc. simpl. apply Z.leb_le. lia.
Qed.

Lemma init_inv (ms : gmap string (method_obj W)) ao self :
  init ms ao = Ret self →
  methods self = ms ∧ allowed_origins self = ao ∧ attributes self = ∅.
Proof.
  unfold init. destruct (forallb _ _); [|done]. intros [= <-]. done.
Qed.

(** Claim C10.  Registration accepts a method object on the strength of the
    object alone, so a server can be built with a handler that has no
    [original_func] attribute; every valid request naming such a handler
    then ends in an uncaught [AttributeError] inside [process_request],
    before the handler is called and without any response. *)
Theorem missing_original_func_raises
    (ms : gmap string (method_obj W)) ao self d name method ip st :
  init ms ao = Ret self →
  ms !! name = Some method →
  original_func method = None →
  is_valid_request (PDict d) = true →
  d !! "method" = Some (PStr name) →
  process_request self (PDict d) ip st = (st, Raise AttributeError).
Proof.
  intros Hinit Hm Ho Hv Hname.
  apply init_inv in Hinit as (Hms & _ & _).
  unfold process_request. rewrite Hv, Hname, Hms, Hm, Ho. reflexivity.
Qed.

(** Claim C3.  A valid request without an id never gets a response
    envelope: an unknown method, invalid parameters and a handler that
    returns (a value or a failure tuple alike) all give [None]; on the last
    path the handler has run, and the state is the one it left. *)
Theorem notification_yields_no_response self d ip st :
  is_valid_request (PDict d) = true →
  d !! "id" = None →
  (∀ st' r, process_request self (PDict d) ip st = (st', Ret r) → r = None)
  ∧ (∀ name, d !! "method" = Some (PStr name) →
       methods self !! name = None →
       process_request self (PDict d) ip st = (st, Ret None))
  ∧ (∀ method a, names_method self d method →
       original_func method = Some a →
       invalid_params a (request_params d) = true →
       process_request self (PDict d) ip st = (st, Ret None))
  ∧ (∀ method a cargs w res, names_method self d method →
       original_func method = Some a →
       invalid_params a (request_params d) = false →
       call_args_of (request_params d) = Some cargs →
       call method ip cargs (world st) = (w, Ret res) →
       process_request self (PDict d) ip st = (with_world w st, Ret None)).
Proof.
  intros Hv Hid.
  assert (request_id d = PNone) as Hnone by (unfold request_id; by rewrite Hid).
  assert (∀ name, d !! "method" = Some (PStr name) →
            methods self !! name = None →
            process_request self (PDict d) ip st = (st, Ret None)) as Hunknown.
  { intros name Hname Hm.
    rewrite (process_request_unknown _ _ _ _ Hv Hname Hm), Hnone. done. }
  assert (∀ method a, names_method self d method →
            original_func method = Some a →
            invalid_params a (request_params d) = true →
            process_request self (PDict d) ip st = (st, Ret None)) as Hinvalid.
  { intros method a Hn Ho Hi.
    rewrite (process_request_bound _ _ _ _ _ Hn Ho), Hi, Hnone. done. }
  assert (∀ method a cargs w res, names_method self d method →
            original_func method = Some a →
            invalid_params a (request_params d) = false →
            call_args_of (request_params d) = Some cargs →
            call method ip cargs (world st) = (w, Ret res) →
            process_request self (PDict d) ip st = (with_world w st, Ret None))
    as Hrun.
  { intros method a cargs w res Hn Ho Hi Hc Hcall.
    rewrite (process_request_invoked _ _ _ _ _ _ _ _ _ Hn Ho Hi Hc Hcall), Hnone.
    done. }
  repeat split; try done.
  intros st' r Hr.
  pose proof Hv as Hv'. simpl in Hv'.
  apply andb_prop in Hv' as [Hv' _]. apply andb_prop in Hv' as [Hv' _].
  apply andb_prop in Hv' as [_ Hmeth].
  destruct (d !! "method") as [[| | | |name| | |]|] eqn:Hname; try done.
  destruct (methods self !! name) as [method|] eqn:Hm.
  2: { rewrite (Hunknown name eq_refl Hm) in Hr. by simplify_eq. }
  assert (names_method self d method) as Hn.
  { split; [done|]. by exists name. }
  destruct (original_func method) as [a|] eqn:Ho.
  2: { unfold process_request in Hr. rewrite Hv, Hname, Hm, Ho in Hr. done. }
  destruct (invalid_params a (request_params d)) eqn:Hi.
  { rewrite (Hinvalid method a Hn Ho Hi) in Hr. by simplify_eq. }
  assert (∃ cargs, call_args_of (request_params d) = Some cargs) as [cargs Hc].
  { destruct (valid_request_params d Hv) as [[l ->]|[kw ->]]; by eexists. }
  destruct (call method ip cargs (world st)) as [w o] eqn:Hcall.
  pose proof (process_request_invoked _ _ _ _ _ _ _ _ _ Hn Ho Hi Hc Hcall) as Heq.
  rewrite Heq in Hr. destruct o; rewrite ?Hnone in Hr; simpl in Hr; by simplify_eq.
Qed.

Lemma response_headers_plain self :
  allowed_origins self = None → response_headers self = Ret base_headers.
Proof. intros Hao. unfold response_headers. by rewrite Hao. Qed.

(** Claim C1.  On a server constructed with an allowed-origins
    configuration, [process_call] reads the attribute [allowed_origin],
    which the constructor does not set: each call ends in [AttributeError],
    whatever the request, with no response started and no header sent. *)
Theorem allowed_origins_call_raises
    (ms : gmap string (method_obj W)) (origin : string) self env st :
  init ms (Some origin) = Ret self →
  process_call self env st = (st, Raise AttributeError)
  ∧ call_server self env st = (st, Raise AttributeError).
Proof.
  intros Hinit. apply init_inv in Hinit as (_ & Hao & Hattrs).
  assert (response_headers self = Raise AttributeError) as Hh.
  { unfold response_headers. rewrite Hao, Hattrs. by rewrite lookup_empty. }
  assert (process_call self env st = (st, Raise AttributeError)) as Hcall.
  { unfold process_call, bind, lift. by rewrite Hh. }
  split; [done|]. unfold call_server, bind. by rewrite Hcall.
Qed.

Lemma error_or_none_id code message rid :
  is_str_or_int rid →
  error_or_none [code; message] rid
  = Ret (Some (error_envelope code message rid)).
Proof. by destruct rid. Qed.

Lemma has_key_error res rid err :
  has_key "error" (return_result res rid err) ↔ err = true.
Proof.
  unfold has_key, return_result. destruct err; simplify_map_eq; split;
    try done; by intros [? ?].
Qed.

Lemma has_key_result res rid err :
  has_key "result" (return_result res rid err) ↔ err = false.
Proof.
  unfold has_key, return_result. destruct err; simplify_map_eq; split;
    try done; by intros [? ?].
Qed.

Lemma error_envelope_keys code message rid :
  has_key "error" (error_envelope code message rid)
  ∧ ¬ has_key "result" (error_envelope code message rid).
Proof.
  unfold has_key, error_envelope. simplify_map_eq. split; [done|].
  by intros [? ?].
Qed.

Lemma result_envelope_keys res rid :
  has_key "result" (result_envelope res rid)
  ∧ ¬ has_key "error" (result_envelope res rid).
Proof.
  unfold has_key, result_envelope. simplify_map_eq. split; [done|].
  by intros [? ?].
Qed.

Lemma handler_response_keys res rid envelope :
  handler_response res rid = Ret (Some envelope) →
  (has_key "error" envelope
   ↔ ∃ code message rest, res = PTuple (code :: message :: rest))
  ∧ (has_key "error" envelope ↔ ¬ has_key "result" envelope).
Proof.
  assert (∀ v, (∀ code message rest, v ≠ PTuple (code :: message :: rest)) →
            (has_key "error" (result_envelope v rid)
             ↔ ∃ code message rest, v = PTuple (code :: message :: rest))
            ∧ (has_key "error" (result_envelope v rid)
               ↔ ¬ has_key "result" (result_envelope v rid))) as Hresult.
  { intros v Hv. destruct (result_envelope_keys v rid) as [Hres Hnerr].
    split; split.
    - intros He. by destruct (Hnerr He).
    - intros (code & message & rest & ->). by destruct (Hv code message rest).
    - intros He. by destruct (Hnerr He).
    - intros Hn. by destruct (Hn Hres). }
  destruct res as [| | | | | |t|]; simpl;
    try (intros [= <-]; by apply Hresult).
  destruct t as [|code [|message rest]]; try done. intros [= <-].
  destruct (error_envelope_keys code message rid) as [Herr Hnres].
  split; split; try done. intros _. by eexists _, _, _.
Qed.

Lemma respond_cases res rid :
  is_str_or_int rid → respond res rid = handler_response res rid.
Proof.
  intros Hsi. destruct rid; try done;
    destruct res as [| | | | | |t|]; try done;
    by destruct t as [|code [|message rest]].
Qed.

Lemma request_id_present d rid :
  is_valid_request (PDict d) = true → d !! "id" = Some rid →
  request_id d = rid ∧ is_str_or_int rid.
Proof.
  intros Hv Hid. unfold request_id. rewrite Hid. split; [done|].
  destruct (valid_request_id d Hv) as [?|(v & ? & ? & _)]; by simplify_eq.
Qed.

Lemma process_request_after_call self d method a ip cargs st rid :
  names_method self d method →
  original_func method = Some a →
  d !! "id" = Some rid →
  invalid_params a (request_params d) = false →
  call_args_of (request_params d) = Some cargs →
  process_request self (PDict d) ip st
  = after_call st rid (call method ip cargs (world st)).
Proof.
  intros Hn Ho Hid Hi Hc.
  destruct (request_id_present d rid (proj1 Hn) Hid) as [Hrid Hsi].
  destruct (call method ip cargs (world st)) as [w r] eqn:Hcall.
  rewrite (process_request_invoked _ _ _ _ _ _ _ _ _ Hn Ho Hi Hc Hcall), Hrid.
  destruct r; [|done]. simpl. by rewrite (respond_cases _ _ Hsi).
Qed.

Lemma process_request_invalid_params self d method a ip st rid :
  names_method self d method →
  original_func method = Some a →
  d !! "id" = Some rid →
  invalid_params a (request_params d) = true →
  process_request self (PDict d) ip st
  = (st, Ret (Some (error_envelope (PInt (-32602)) (PStr "Invalid params") rid))).
Proof.
  intros Hn Ho Hid Hi.
  destruct (request_id_present d rid (proj1 Hn) Hid) as [Hrid Hsi].
  rewrite (process_request_bound _ _ _ _ _ Hn Ho), Hi, Hrid.
  unfold lift, INVALID_PARAMS. by rewrite (error_or_none_id _ _ _ Hsi).
Qed.

Lemma req_args_required_count a :
  (length (default [] (defaults a)) ≤ length (args a))%nat →
  req_args a = required_count a.
Proof.
  intros Hle. unfold req_args, required_count, parameters_without_default.
  rewrite length_take. destruct (defaults a) as [ds|]; simpl in *; lia.
Qed.

(** Claim C5.  For a valid request with an id whose params is a sequence,
    the binding check fails exactly when the sequence is shorter than the
    required count, the number of declared parameters without a default
    less the two leading ones (this is the count the code computes): then
    the response is the Invalid params (-32602) error under the request's
    id and the handler is not called; otherwise the handler is called with
    the sequence, however long it is. *)
Theorem positional_binding self d method a ip st rid l :
  names_method self d method →
  original_func method = Some a →
  (length (default [] (defaults a)) ≤ length (args a))%nat →
  d !! "id" = Some rid →
  request_params d = PList l →
  req_args a = required_count a
  ∧ (invalid_params a (PList l) = true ↔ Z.of_nat (length l) < required_count a)
  ∧ (Z.of_nat (length l) < required_count a →
       process_request self (PDict d) ip st
       = (st, Ret (Some (error_envelope (PInt (-32602))
                           (PStr "Invalid params") rid))))
  ∧ (required_count a ≤ Z.of_nat (length l) →
       process_request self (PDict d) ip st
       = after_call st rid (call method ip (Positional l) (world st)))
  ∧ (Z.of_nat (length (args a)) - 2 < Z.of_nat (length l) →
       invalid_params a (PList l) = false).
Proof.
  intros Hn Ho Hle Hid Hp.
  pose proof (req_args_required_count a Hle) as Hcount.
  split; [done|]. rewrite <- Hcount.
  split; [apply invalid_params_list|].
  split; [|split].
  - intros Hlt. apply (process_request_invalid_params _ _ _ _ _ _ _ Hn Ho Hid).
    rewrite Hp. by apply invalid_params_list.
  - intros Hge.
    apply (process_request_after_call _ _ _ _ _ _ _ _ Hn Ho Hid).
    + rewrite Hp. apply not_true_iff_false. rewrite invalid_params_list. lia.
    + by rewrite Hp.
  - intros Hlong. apply not_true_iff_false. rewrite invalid_params_list.
    pose proof (req_args_le_declared a). lia.
Qed.


(** Claim C7, as the code has it.  When the handler of a request with an
    id returns a tuple of at least two elements, the response is the error
    envelope with the tuple's first two elements as code and message, under
    the request's id; when it returns a value that is not a tuple, the
    response is the success envelope with that value as result, under the
    request's id.  A response is an error envelope exactly in the first
    case, and every response has exactly one of result and error. *)
Theorem handler_return_envelope self d method a ip cargs st rid w res :
  names_method self d method →
  original_func method = Some a →
  d !! "id" = Some rid →
  invalid_params a (request_params d) = false →
  call_args_of (request_params d) = Some cargs →
  call method ip cargs (world st) = (w, Ret res) →
  (∀ code message rest, res = PTuple (code :: message :: rest) →
     process_request self (PDict d) ip st
     = (with_world w st, Ret (Some (error_envelope code message rid))))
  ∧ ((∀ t, res ≠ PTuple t) →
     process_request self (PDict d) ip st
     = (with_world w st, Ret (Some (result_envelope res rid))))
  ∧ (∀ st' envelope,
       process_request self (PDict d) ip st = (st', Ret (Some envelope)) →
       (has_key "error" envelope
        ↔ ∃ code message rest, res = PTuple (code :: message :: rest))
       ∧ (has_key "error" envelope ↔ ¬ has_key "result" envelope)).
Proof.
  intros Hn Ho Hid Hi Hc Hcall.
  destruct (request_id_present d rid (proj1 Hn) Hid) as [_ Hsi].
  rewrite (process_request_after_call _ _ _ _ _ _ _ _ Hn Ho Hid Hi Hc), Hcall.
  simpl. split; [|split].
  - by intros code message rest ->.
  - intros Hnt. destruct res; try done. by destruct (Hnt l).
  - intros st' envelope [= _ Hr]. by apply (handler_response_keys res rid).
Qed.

(** *** Responses started by a call *)

Lemma process_request_started self q ip st st' r :
  process_request self q ip st = (st', r) → started st' = started st.
Proof.
  unfold process_request.
  destruct (is_valid_request q); simpl; [|by intros [= <- _]].
  destruct q as [| | | | | | |d]; try by intros [= <- _].
  destruct (d !! "method") as [[| | | |name| | |]|]; try by intros [= <- _].
  destruct (methods self !! name) as [method|]; [|by intros [= <- _]].
  destruct (original_func method) as [a|]; [|by intros [= <- _]].
  destruct (invalid_params a _); [by intros [= <- _]|].
  unfold bind, invoke, raise, lift.
  destruct (default (PList []) (d !! "params")) as [| | | | |l| |kw];
    try by intros [= <- _].
  - destruct (call method ip (Positional l) (world st)) as [w [res|e]];
      by intros [= <- _].
  - destruct (call method ip (Keyword kw) (world st)) as [w [res|e]];
      by intros [= <- _].
Qed.

Lemma request_loop_started self request ip acc st st' r :
  request_loop self request ip acc st = (st', r) → started st' = started st.
Proof.
  revert acc st. induction request as [|q rest IH]; intros acc st; simpl.
  - by intros [= <- _].
  - unfold bind.
    destruct (process_request self q ip st) as [st1 [o|e]] eqn:Hq.
    + intros Hrest. apply IH in Hrest.
      by rewrite Hrest, (process_request_started _ _ _ _ _ _ Hq).
    + intros [= <- _]. by apply process_request_started in Hq.
Qed.

Lemma process_request_list_started self request ip st st' r :
  process_request_list self request ip st = (st', r) →
  started st' = started st.
Proof.
  unfold process_request_list, bind.
  destruct (request_loop self request ip [] st) as [st1 [out|e]] eqn:Hloop;
    apply request_loop_started in Hloop.
  - destruct (_ =? _); by intros [= <- _].
  - by intros [= <- _].
Qed.

(** A POST call whose Content-Type passes ends without a response, or
    starts one response whose status is 406, 400, 204 or 200. *)
Lemma process_call_accepted_status self env st st' r ct :
  REQUEST_METHOD env = "POST" →
  CONTENT_TYPE env = Some ct →
  not_valid_content_type ct = false →
  process_call self env st = (st', r) →
  started st' = started st
  ∨ ∃ status headers,
      started st' = started st ++ [(status, headers)]
      ∧ status ∈ later_statuses.
Proof.
  intros Hpost Hct Hok. unfold process_call, bind at 1, lift.
  destruct (response_headers self) as [hs|e]; [|intros [= <- _]; by left].
  rewrite Hpost, Hct, Hok. simpl.
  destruct (match HTTP_ACCEPT env with
            | Some accept => not_valid_content_type accept
            | None => false
            end).
  { intros [= <- _]. right. eexists _, _. split; [done|].
    unfold later_statuses. set_solver. }
  unfold bind, lift, extra_checks, ret.
  destruct (remote_addr env) as [ip|e]; [|intros [= <- _]; by left].
  destruct (read_request env) as [request|e].
  2: { destruct e; intros [= <- _]; try (by left).
       right. eexists _, _. split; [done|].
       unfold later_statuses. set_solver. }
  assert (∀ (st1 : state W) (o : option pyval),
            started st1 = started st →
            (match o with
             | Some _ => let! _ := start_response HTTP_OK hs in ret o
             | None => let! _ := start_response HTTP_NO_CONTENT [] in ret o
             end) st1 = (st', r) →
            ∃ status headers,
              started st' = started st ++ [(status, headers)]
              ∧ status ∈ later_statuses) as Hend.
  { intros st1 o Hst1. destruct o; intros [= <- _]; simpl; rewrite Hst1;
      eexists _, _; (split; [done|]); unfold later_statuses; set_solver. }
  destruct request as [| | | | |l| |];
    try (destruct (process_request self _ ip st) as [st1 [o|e]] eqn:Hq;
         apply process_request_started in Hq;
         [intros Hr; right; by apply (Hend st1 o)
         |intros [= <- _]; by left]).
  unfold process_request_list, bind, ret.
  destruct (request_loop self l ip [] st) as [st1 [out|e]] eqn:Hloop;
    apply request_loop_started in Hloop; [|intros [= <- _]; by left].
  destruct (_ =? _); intros Hr; right.
  - by apply (Hend st1 None).
  - by apply (Hend st1 (Some (PList out))).
Qed.

Lemma not_valid_content_type_true ct :
  not_valid_content_type ct = true ↔ ¬ accepted_content_type ct.
Proof.
  rewrite <- not_valid_content_type_false. by destruct (not_valid_content_type ct).
Qed.

(** Claim C8.  On a POST call the Content-Type header must be one of
    application/json-rpc, application/json and application/jsonrequest,
    alone or followed by a single charset= parameter: the check accepts
    exactly these, and a call whose header is absent or not of this form
    starts a 415 response and returns the Bad Content-Type error with a
    null id.  "application/json; charset=utf-8" is accepted, "text/plain"
    is rejected with 415.  A call whose header is of this form never starts
    a 415 response. *)
Theorem content_type_check self env st headers :
  response_headers self = Ret headers →
  REQUEST_METHOD env = "POST" →
  (∀ ct, not_valid_content_type ct = false ↔ accepted_content_type ct)
  ∧ (CONTENT_TYPE env = None
     ∨ (∃ ct, CONTENT_TYPE env = Some ct ∧ ¬ accepted_content_type ct) →
     process_call self env st
     = (record_response HTTP_UNSUPPORTED_MEDIA headers st,
        Ret (Some (error_envelope (PInt 1)
                     (PStr "Bad or missing Content-Type header") PNone))))
  ∧ (∀ ct st' r hs,
       CONTENT_TYPE env = Some ct →
       accepted_content_type ct →
       process_call self env st = (st', r) →
       started st' ≠ started st ++ [(HTTP_UNSUPPORTED_MEDIA, hs)])
  ∧ accepted_content_type "application/json; charset=utf-8"
  ∧ (CONTENT_TYPE env = Some "text/plain" →
     process_call self env st
     = (record_response HTTP_UNSUPPORTED_MEDIA headers st,
        Ret (Some (error_envelope (PInt 1)
                     (PStr "Bad or missing Content-Type header") PNone)))).
Proof.
  intros Hh Hpost.
  assert (match CONTENT_TYPE env with
          | Some ct => not_valid_content_type ct
          | None => true
          end = true →
          process_call self env st
          = (record_response HTTP_UNSUPPORTED_MEDIA headers st,
             Ret (Some (error_envelope (PInt 1)
                          (PStr "Bad or missing Content-Type header") PNone))))
    as Hreject.
  { intros Hbad. unfold process_call, bind at 1, lift.
    rewrite Hh, Hpost, Hbad. reflexivity. }
  split; [apply not_valid_content_type_false|].
  split; [|split; [|split]].
  - intros [Hnone|(ct & Hct & Hnot)]; apply Hreject.
    + by rewrite Hnone.
    + rewrite Hct. by apply not_valid_content_type_true.
  - intros ct st' r hs Hct Hacc Hcall Hst.
    apply not_valid_content_type_false in Hacc.
    destruct (process_call_accepted_status _ _ _ _ _ _ Hpost Hct Hacc Hcall)
      as [Hsame|(status & hs' & Hone & Hstatus)].
    + rewrite Hsame in Hst. apply (f_equal length) in Hst.
      rewrite length_app in Hst. simpl in Hst. lia.
    + rewrite Hone in Hst. apply app_inv_head in Hst. simplify_eq.
      unfold later_statuses in Hstatus.
      rewrite !elem_of_cons, elem_of_nil in Hstatus.
      by destruct Hstatus as [?|[?|[?|[?|[]]]]].
  - by apply not_valid_content_type_false.
  - intros Hct. apply Hreject. by rewrite Hct.
Qed.

(** The call up to the body, for a request that passes the header checks. *)
Lemma process_call_passed self env st headers ip :
  response_headers self = Ret headers →
  passes_header_checks env →
  remote_addr env = Ret ip →
  process_call self env st
  = match read_request env with
    | Raise ValueError =>
        (let! _ := start_response HTTP_BAD_REQUEST headers in
         let! e := lift (return_error PARSE_ERROR PNone) in ret (Some e)) st
    | Raise e => (st, Raise e)
    | Ret request =>
        (let! result :=
           match request with
           | PList l =>
               let! rs := process_request_list self l ip in
               ret (PList <$> rs)
           | _ => process_request self request ip
           end in
         match result with
         | None => let! _ := start_response HTTP_NO_CONTENT [] in ret result
         | Some _ => let! _ := start_response HTTP_OK headers in ret result
         end) st
    end.
Proof.
  intros Hh (Hpost & (ct & Hct & Hok) & Haccept) Hip.
  unfold process_call, bind at 1, lift. rewrite Hh, Hpost, Hct, Hok.
  assert (match HTTP_ACCEPT env with
          | Some accept => not_valid_content_type accept
          | None => false
          end = false) as ->.
  { destruct (HTTP_ACCEPT env) as [accept|]; [by apply Haccept|done]. }
  simpl. unfold bind at 1, lift. rewrite Hip.
  unfold bind at 1, extra_checks, ret at 1.
  destruct (read_request env) as [request|e]; [done|]. by destruct e.
Qed.

(** Claim C9, as the code has it.  A POST call that passes the header
    checks, whose caller address is read and which the hook lets through,
    and whose body is not UTF-8 text or is rejected by the JSON parser with
    a [ValueError], starts a 400 response and returns the Parse error
    (-32700) with a null id; the handlers' state is untouched, no request
    having been dispatched. *)
Theorem malformed_body_parse_error self env st headers ip :
  response_headers self = Ret headers →
  passes_header_checks env →
  remote_addr env = Ret ip →
  (utf8_decode (wsgi_input env) = None
   ∨ ∃ text, utf8_decode (wsgi_input env) = Some text
             ∧ json_loads text = Raise ValueError) →
  process_call self env st
  = (record_response HTTP_BAD_REQUEST headers st,
     Ret (Some (error_envelope (PInt (-32700)) (PStr "Parse error") PNone)))
  ∧ world (process_call self env st).1 = world st.
Proof.
  intros Hh Hpass Hip Hbody.
  assert (read_request env = Raise ValueError) as Hread.
  { unfold read_request.
    destruct Hbody as [->|(text & -> & Hloads)]; [done|]. by rewrite Hloads. }
  rewrite (process_call_passed _ _ _ _ _ Hh Hpass Hip), Hread. done.
Qed.

(** *** Batches *)

Lemma request_loop_mapM self request ip acc st :
  request_loop self request ip acc st
  = (let! rs := mapM (λ q, process_request self q ip) request in
     ret (acc ++ omap id rs)) st.
Proof.
  revert acc st. induction request as [|q rest IH]; intros acc st; simpl.
  - unfold bind, ret. simpl. by rewrite app_nil_r.
  - unfold bind at 1 2 3.
    destruct (process_request self q ip st) as [st1 [r|e]]; [|done].
    rewrite IH. unfold bind, ret.
    destruct (mapM _ rest st1) as [st2 [rs|e]]; [|done].
    destruct r as [r|]; simpl; [|done]. by rewrite <- app_assoc.
Qed.

Lemma process_request_list_batch self request ip st :
  process_request_list self request ip st = batch_responses self request ip st.
Proof.
  unfold process_request_list, batch_responses, bind at 1.
  rewrite request_loop_mapM. unfold bind, ret.
  destruct (mapM _ request st) as [st1 [rs|e]]; [|done].
  simpl. by destruct (omap id rs).
Qed.

Lemma omap_all_none (rs : list (option pyval)) :
  Forall (λ r, r = None) rs → omap id rs = [].
Proof. induction 1 as [|r rs -> _ IH]; [done|]. simpl. exact IH. Qed.

(** The end of [process_call] for a body that is a JSON array. *)
Lemma process_call_batch self env st headers ip request :
  response_headers self = Ret headers →
  passes_header_checks env →
  remote_addr env = Ret ip →
  read_request env = Ret (PList request) →
  process_call self env st
  = match process_request_list self request ip st with
    | (st', Ret None) => (record_response HTTP_NO_CONTENT [] st', Ret None)
    | (st', Ret (Some out)) =>
        (record_response HTTP_OK headers st', Ret (Some (PList out)))
    | (st', Raise e) => (st', Raise e)
    end.
Proof.
  intros Hh Hpass Hip Hread.
  rewrite (process_call_passed _ _ _ _ _ Hh Hpass Hip), Hread.
  unfold bind.
  destruct (process_request_list self request ip st) as [st' [[out|]|e]]; done.
Qed.

Lemma batch_run_mapM self ip st request rs st' :
  batch_run self ip st request rs st' →
  mapM (λ q, process_request self q ip) request st = (st', Ret rs).
Proof.
  induction 1 as [st|st q st1 r rest rs st2 Hq _ IH]; [done|].
  simpl. unfold bind at 1. rewrite Hq. unfold bind at 1. by rewrite IH.
Qed.

(** Claim C4, as the code has it.  For a sequence of requests none of which
    makes [process_request] raise, [process_request_list] processes the
    elements in order, each from the state the one before left, and returns
    the responses that were not suppressed, in that order; when all are
    suppressed it returns no content.  On a call whose body is that array,
    no content becomes a 204 response with no header and an empty body, and
    a sequence of responses a 200 response whose body is their encoding. *)
Theorem batch_processing self request ip st rs st' :
  batch_run self ip st request rs st' →
  process_request_list self request ip st = (st', Ret (batch_output rs))
  ∧ (Forall (λ r, r = None) rs ↔ batch_output rs = None)
  ∧ (∀ out, batch_output rs = Some out → out = omap id rs ∧ out ≠ [])
  ∧ (∀ env headers,
       response_headers self = Ret headers →
       passes_header_checks env →
       remote_addr env = Ret ip →
       read_request env = Ret (PList request) →
       match batch_output rs with
       | None =>
           process_call self env st
           = (record_response HTTP_NO_CONTENT [] st', Ret None)
           ∧ call_server self env st
             = (record_response HTTP_NO_CONTENT [] st', Ret [[]])
       | Some out =>
           process_call self env st
           = (record_response HTTP_OK headers st', Ret (Some (PList out)))
           ∧ call_server self env st
             = (record_response HTTP_OK headers st',
                Ret [json_dumps (PList out)])
       end).
Proof.
  intros Hrun.
  assert (process_request_list self request ip st
          = (st', Ret (batch_output rs))) as Hlist.
  { rewrite process_request_list_batch.
    unfold batch_responses, bind, ret. by rewrite (batch_run_mapM _ _ _ _ _ _ Hrun). }
  split; [done|]. split; [|split].
  - unfold batch_output. split.
    + intros Hall. by rewrite (omap_all_none _ Hall).
    + clear. induction rs as [|[v|] rs IH]; simpl; [done|done|].
      intros Hn. constructor; [done|]. by apply IH.
  - unfold batch_output. intros out Hout.
    destruct (omap id rs); by simplify_eq.
  - intros env headers Hh Hpass Hip Hread.
    pose proof (process_call_batch _ _ st _ _ _ Hh Hpass Hip Hread) as Hcall.
    rewrite Hlist in Hcall.
    destruct (batch_output rs) as [out|]; (split; [done|]);
      unfold call_server, bind, ret; by rewrite Hcall.
Qed.

End Properties.

(** ** Further properties of the code *)

Section MoreProperties.

Context {W : Type} {lib : PyLib}.

Implicit Types (self : JsonRpcServer W) (st : state W) (d kw : gmap string pyval).

(** *** Transport checks *)

(** An OPTIONS call is answered 200 with the preflight headers and no
    body, whatever its Content-Type, Accept, address and body; no handler
    runs. *)
Theorem options_preflight self env st headers :
  response_headers self = Ret headers →
  REQUEST_METHOD env = "OPTIONS" →
  process_call self env st
  = (record_response HTTP_OK (preflight_headers headers) st, Ret None)
  ∧ call_server self env st
    = (record_response HTTP_OK (preflight_headers headers) st, Ret [[]]).
Proof.
  intros Hh Hm.
  assert (process_call self env st
          = (record_response HTTP_OK (preflight_headers headers) st, Ret None))
    as Hcall.
  { unfold process_call, bind at 1, lift. rewrite Hh, Hm. reflexivity. }
  split; [done|]. unfold call_server, bind, ret. by rewrite Hcall.
Qed.

(** A call whose method is neither POST nor OPTIONS (the comparison is
    exact, so "post" is such a method) is answered 405 with an Allow header
    and the Only POST allowed error under a null id; no handler runs. *)
Theorem other_method_not_allowed self env st headers :
  response_headers self = Ret headers →
  REQUEST_METHOD env ≠ "POST" →
  REQUEST_METHOD env ≠ "OPTIONS" →
  process_call self env st
  = (record_response HTTP_METHOD_NOT_ALLOWED (allow_post headers) st,
     Ret (Some (error_envelope (PInt 0) (PStr "Only POST allowed") PNone))).
Proof.
  intros Hh Hpost Hopt. unfold process_call, bind at 1, lift. rewrite Hh.
  apply String.eqb_neq in Hpost, Hopt. rewrite Hpost, Hopt. reflexivity.
Qed.

(** A POST call with an acceptable Content-Type and an Accept header that
    is not of the accepted form is answered 406 with the Bad Accept error
    under a null id, before the address is read or the body parsed. *)
Theorem bad_accept_not_acceptable self env st headers ct accept :
  response_headers self = Ret headers →
  REQUEST_METHOD env = "POST" →
  CONTENT_TYPE env = Some ct →
  accepted_content_type ct →
  HTTP_ACCEPT env = Some accept →
  ¬ accepted_content_type accept →
  process_call self env st
  = (record_response HTTP_NOT_ACCEPTABLE headers st,
     Ret (Some (error_envelope (PInt 2) (PStr "Bad Accept header") PNone))).
Proof.
  intros Hh Hpost Hct Hok Ha Hbad.
  apply not_valid_content_type_false in Hok.
  apply not_valid_content_type_true in Hbad.
  unfold process_call, bind at 1, lift.
  rewrite Hh, Hpost, Hct, Hok, Ha, Hbad. reflexivity.
Qed.

(** A POST call that passes the header checks and whose REMOTE_ADDR is not
    an address ends in an uncaught [ValueError]: no response is started and
    no handler runs. *)
Theorem malformed_remote_addr_raises self env st headers addr :
  response_headers self = Ret headers →
  passes_header_checks env →
  REMOTE_ADDR env = Some addr →
  ip_address_packed addr = None →
  process_call self env st = (st, Raise ValueError)
  ∧ call_server self env st = (st, Raise ValueError).
Proof.
  intros Hh (Hpost & (ct & Hct & Hok) & Haccept) Haddr Hpacked.
  assert (process_call self env st = (st, Raise ValueError)) as Hcall.
  { unfold process_call, bind at 1, lift. rewrite Hh, Hpost, Hct, Hok.
    assert (match HTTP_ACCEPT env with
            | Some accept => not_valid_content_type accept
            | None => false
            end = false) as ->.
    { destruct (HTTP_ACCEPT env) as [accept|]; [by apply Haccept|done]. }
    simpl. unfold bind at 1, lift, remote_addr. by rewrite Haddr, Hpacked. }
  split; [done|]. unfold call_server, bind. by rewrite Hcall.
Qed.

(** A body that is not a JSON array goes to [process_request]: a response
    is returned as it is with status 200, the absence of a response gives
    status 204 with an empty header list, and an exception of
    [process_request] leaves the call without any response started. *)
Theorem single_request_dispatch self env st headers ip request :
  response_headers self = Ret headers →
  passes_header_checks env →
  remote_addr env = Ret ip →
  read_request env = Ret request →
  (∀ l, request ≠ PList l) →
  process_call self env st
  = match process_request self request ip st with
    | (st', Ret None) => (record_response HTTP_NO_CONTENT [] st', Ret None)
    | (st', Ret (Some envelope)) =>
        (record_response HTTP_OK headers st', Ret (Some envelope))
    | (st', Raise e) => (st', Raise e)
    end.
Proof.
  intros Hh Hpass Hip Hread Hnl.
  rewrite (process_call_passed _ _ _ _ _ Hh Hpass Hip), Hread.
  unfold bind.
  destruct request as [| | | | |l| |]; try (by destruct (Hnl l));
    by destruct (process_request self _ ip st) as [st' [[envelope|]|e]].
Qed.

(** *** Responses of a call *)

Ltac in_list := apply list_elem_of_In; simpl; tauto.

(** A call that returns has started exactly one response, and a call that
    raises has started none.  A call that returns no body was answered 204
    with an empty header list, or was an OPTIONS call answered 200; a call
    that returns a body was answered 200, 400, 405, 406 or 415 with headers
    that begin with the server's header list. *)
Theorem process_call_responses self env st st' r :
  process_call self env st = (st', r) →
  match r with
  | Raise _ => started st' = started st
  | Ret o =>
      ∃ status hs,
        started st' = started st ++ [(status, hs)]
        ∧ match o with
          | None =>
              (status = HTTP_NO_CONTENT ∧ hs = [])
              ∨ (REQUEST_METHOD env = "OPTIONS" ∧ status = HTTP_OK)
          | Some _ =>
              status ∈ body_statuses
              ∧ ∃ headers, response_headers self = Ret headers
                           ∧ headers `prefix_of` hs
          end
  end.
Proof.
  unfold process_call, bind at 1, lift.
  destruct (response_headers self) as [headers|e] eqn:Hh;
    [|by intros [= <- <-]].
  assert (∀ status, status ∈ body_statuses →
            ∀ hs, headers `prefix_of` hs →
            ∀ v : pyval,
              ∃ status' hs',
                started (record_response status hs st)
                = started st ++ [(status', hs')]
                ∧ status' ∈ body_statuses
                ∧ ∃ headers', Ret (A:=header_list) headers = Ret headers'
                              ∧ headers' `prefix_of` hs') as Hbody.
  { intros status Hs hs Hp v. exists status, hs. split; [done|].
    split; [done|]. by exists headers. }
  destruct (String.eqb (REQUEST_METHOD env) "POST") eqn:Hpost; simpl.
  2: { destruct (String.eqb_spec (REQUEST_METHOD env) "OPTIONS") as [Ho|Ho].
       - intros [= <- <-]. eexists _, _. split; [done|]. by right.
       - intros [= <- <-]. apply (Hbody HTTP_METHOD_NOT_ALLOWED).
         + in_list.
         + by eexists.
         + exact PNone. }
  destruct (match CONTENT_TYPE env with
            | Some ct => not_valid_content_type ct
            | None => true
            end).
  { intros [= <- <-]. apply (Hbody HTTP_UNSUPPORTED_MEDIA);
      [in_list|done|exact PNone]. }
  destruct (match HTTP_ACCEPT env with
            | Some accept => not_valid_content_type accept
            | None => false
            end).
  { intros [= <- <-]. apply (Hbody HTTP_NOT_ACCEPTABLE);
      [in_list|done|exact PNone]. }
  unfold bind at 1, lift.
  destruct (remote_addr env) as [ip|e]; [|by intros [= <- <-]].
  unfold bind at 1, extra_checks, ret at 1.
  destruct (read_request env) as [request|e].
  2: { destruct e; intros [= <- <-]; try done.
       apply (Hbody HTTP_BAD_REQUEST); [in_list|done|exact PNone]. }
  assert (∀ (st1 : state W) (o : option pyval),
            started st1 = started st →
            (match o with
             | Some _ => let! _ := start_response HTTP_OK headers in ret o
             | None => let! _ := start_response HTTP_NO_CONTENT [] in ret o
             end) st1 = (st', r) →
            match r with
            | Raise _ => started st' = started st
            | Ret o =>
                ∃ status hs,
                  started st' = started st ++ [(status, hs)]
                  ∧ match o with
                    | None =>
                        (status = HTTP_NO_CONTENT ∧ hs = [])
                        ∨ (REQUEST_METHOD env = "OPTIONS" ∧ status = HTTP_OK)
                    | Some _ =>
                        status ∈ body_statuses
                        ∧ ∃ headers', Ret (A:=header_list) headers = Ret headers'
                                      ∧ headers' `prefix_of` hs
                    end
            end) as Hend.
  { intros st1 o Hst1. destruct o as [v|]; intros [= <- <-]; simpl;
      rewrite Hst1; eexists _, _; (split; [done|]).
    - split; [in_list|]. by exists headers.
    - by left. }
  unfold bind.
  destruct request as [| | | | |l| |];
    try (destruct (process_request self _ ip st) as [st1 [o|e]] eqn:Hq;
         apply process_request_started in Hq;
         [by apply (Hend st1 o) | by intros [= <- <-]]).
  destruct (process_request_list self l ip st) as [st1 [out|e]] eqn:Hl;
    apply process_request_list_started in Hl; [|by intros [= <- <-]].
  unfold ret at 1. by apply (Hend st1 (PList <$> out)).
Qed.

(** *** Responses of a request *)

Lemma return_result_envelope res rid err :
  response_envelope rid (return_result res rid err).
Proof.
  eexists. split; [reflexivity|].
  destruct err; simplify_map_eq; (split; [done|]); (split; [done|]);
    split; try done; try (by intros [? ?]); try (intros Hn; by destruct Hn);
    intros _; by intros [? ?].
Qed.

Lemma error_or_none_envelope error rid v :
  error_or_none error rid = Ret (Some v) → response_envelope rid v.
Proof.
  unfold error_or_none, return_error, geterrdata.
  destruct rid; try done; destruct error as [|code [|message rest]]; try done;
    intros [= <-]; apply return_result_envelope.
Qed.

Lemma respond_envelope res rid v :
  respond res rid = Ret (Some v) → response_envelope rid v.
Proof.
  unfold respond, return_error, geterrdata.
  destruct rid; try done; destruct res as [| | | | | |t|];
    try (destruct t as [|code [|message rest]]); try done;
    intros [= <-]; apply return_result_envelope.
Qed.

(** Whatever the request, a response of [process_request] is a dictionary
    with the version member "2.0", exactly one of result and error, and as
    id the request's own id when the request is valid and null when it is
    not. *)
Theorem process_request_envelope self request ip st st' v :
  process_request self request ip st = (st', Ret (Some v)) →
  response_envelope (response_id request) v.
Proof.
  unfold process_request, response_id.
  destruct (is_valid_request request) eqn:Hv; simpl.
  2: { intros [= _ <-].
       destruct request; apply return_result_envelope. }
  destruct request as [| | | | | | |d]; try done.
  destruct (d !! "method") as [[| | | |name| | |]|]; try done.
  fold (request_id d).
  destruct (methods self !! name) as [method|].
  2: { intros [= _ Hr]. by apply error_or_none_envelope in Hr. }
  destruct (original_func method) as [a|]; [|done].
  destruct (invalid_params a _).
  { intros [= _ Hr]. by apply error_or_none_envelope in Hr. }
  unfold bind, invoke, raise, lift.
  destruct (default (PList []) (d !! "params")) as [| | | | |l| |kw]; try done.
  - destruct (call method ip (Positional l) (world st)) as [w [res|e]];
      [|done]. intros [= _ Hr]. by apply respond_envelope in Hr.
  - destruct (call method ip (Keyword kw) (world st)) as [w [res|e]];
      [|done]. intros [= _ Hr]. by apply respond_envelope in Hr.
Qed.

(** A valid request with an id is never passed over in silence: when
    [process_request] returns, it returns a response under that id. *)
Theorem request_with_id_answered self d rid ip st st' r :
  is_valid_request (PDict d) = true →
  d !! "id" = Some rid →
  process_request self (PDict d) ip st = (st', Ret r) →
  ∃ v, r = Some v ∧ response_envelope rid v.
Proof.
  intros Hv Hid Hr.
  destruct (request_id_present d rid Hv Hid) as [Hrid Hsi].
  assert (r ≠ None) as Hsome.
  { revert Hr. unfold process_request. rewrite Hv. simpl.
    destruct (d !! "method") as [[| | | |name| | |]|]; try done.
    fold (request_id d). rewrite Hrid.
    assert (∀ error, error_or_none error rid ≠ Ret None) as Herr.
    { intros error. unfold error_or_none.
      destruct rid; try done; by destruct (return_error error _). }
    assert (∀ res, respond res rid ≠ Ret None) as Hres.
    { intros res. rewrite (respond_cases _ _ Hsi).
      destruct res as [| | | | | |t|]; try done.
      by destruct t as [|code [|message rest]]. }
    destruct (methods self !! name) as [method|].
    2: { intros [= _ Hn] ->. by apply (Herr METHOD_NOT_FOUND). }
    destruct (original_func method) as [a|]; [|done].
    destruct (invalid_params a _).
    { intros [= _ Hn] ->. by apply (Herr INVALID_PARAMS). }
    unfold bind, invoke, raise, lift.
    destruct (default (PList []) (d !! "params")) as [| | | | |l| |kw];
      try done.
    - destruct (call method ip (Positional l) (world st)) as [w [res|e]];
        [|done]. intros [= _ Hn] ->. by apply (Hres res).
    - destruct (call method ip (Keyword kw) (world st)) as [w [res|e]];
        [|done]. intros [= _ Hn] ->. by apply (Hres res). }
  destruct r as [v|]; [|done]. exists v. split; [done|].
  apply process_request_envelope in Hr. unfold response_id in Hr.
  by rewrite Hv, Hrid in Hr.
Qed.

(** A valid request with an id for a name that is not registered (names
    are compared exactly) gets the Method not found (-32601) error under
    its id; no handler runs. *)
Theorem unknown_method_with_id self d name rid ip st :
  is_valid_request (PDict d) = true →
  d !! "method" = Some (PStr name) →
  d !! "id" = Some rid →
  methods self !! name = None →
  process_request self (PDict d) ip st
  = (st, Ret (Some (error_envelope (PInt (-32601)) (PStr "Method not found")
                      rid))).
Proof.
  intros Hv Hname Hid Hm.
  destruct (request_id_present d rid Hv Hid) as [Hrid Hsi].
  rewrite (process_request_unknown _ _ _ _ Hv Hname Hm), Hrid.
  unfold lift, METHOD_NOT_FOUND. by rewrite (error_or_none_id _ _ _ Hsi).
Qed.

(** A handler that returns a tuple with fewer than two elements, on a
    request with an id: the handler has run, and [process_request] ends in
    an uncaught [IndexError] instead of a response. *)
Theorem short_tuple_raises self d method a ip cargs st rid w t :
  names_method self d method →
  original_func method = Some a →
  d !! "id" = Some rid →
  invalid_params a (request_params d) = false →
  call_args_of (request_params d) = Some cargs →
  call method ip cargs (world st) = (w, Ret (PTuple t)) →
  (length t < 2)%nat →
  process_request self (PDict d) ip st = (with_world w st, Raise IndexError).
Proof.
  intros Hn Ho Hid Hi Hc Hcall Hlen.
  destruct (request_id_present d rid (proj1 Hn) Hid) as [_ Hsi].
  rewrite (process_request_after_call _ _ _ _ _ _ _ _ Hn Ho Hid Hi Hc), Hcall.
  simpl. destruct t as [|code [|message rest]]; try done. simpl in Hlen. lia.
Qed.

(** An exception raised by a handler is not caught: [process_request] ends
    in that exception, with the state the handler left, whether or not the
    request has an id. *)
Theorem handler_exception_propagates self d method a ip cargs st w e :
  names_method self d method →
  original_func method = Some a →
  invalid_params a (request_params d) = false →
  call_args_of (request_params d) = Some cargs →
  call method ip cargs (world st) = (w, Raise e) →
  process_request self (PDict d) ip st = (with_world w st, Raise e).
Proof.
  intros Hn Ho Hi Hc Hcall.
  by rewrite (process_request_invoked _ _ _ _ _ _ _ _ _ Hn Ho Hi Hc Hcall).
Qed.

(** *** Batches, piece by piece *)

Lemma mapM_app {S A B} (f : A → M S B) (l1 l2 : list A) (s : S) :
  mapM f (l1 ++ l2) s
  = (let! r1 := mapM f l1 in
     let! r2 := mapM f l2 in
     ret (r1 ++ r2)) s.
Proof.
  revert s. induction l1 as [|x l1 IH]; intros s; simpl; unfold bind, ret in *.
  - by destruct (mapM f l2 s) as [s2 [r2|e]].
  - destruct (f x s) as [s1 [y|e]]; [|done]. rewrite IH.
    destruct (mapM f l1 s1) as [s2 [r1|e]]; [|done].
    by destruct (mapM f l2 s2) as [s3 [r2|e]].
Qed.

(** Processing the batch [l1 ++ l2] is processing [l1], then [l2] from the
    state [l1] left, and putting the two outputs together; an exception in
    either part ends the whole batch. *)
Theorem batch_append self l1 l2 ip st :
  process_request_list self (l1 ++ l2) ip st
  = match process_request_list self l1 ip st with
    | (st1, Ret o1) =>
        match process_request_list self l2 ip st1 with
        | (st2, Ret o2) => (st2, Ret (join_outputs o1 o2))
        | (st2, Raise e) => (st2, Raise e)
        end
    | (st1, Raise e) => (st1, Raise e)
    end.
Proof.
  rewrite (process_request_list_batch _ (l1 ++ l2)),
    (process_request_list_batch _ l1).
  unfold batch_responses, bind, ret. rewrite mapM_app. unfold bind, ret.
  destruct (mapM _ l1 st) as [st1 [r1|e]]; [|done].
  rewrite process_request_list_batch. unfold batch_responses, bind, ret.
  destruct (mapM _ l2 st1) as [st2 [r2|e]]; [|done].
  unfold join_outputs. rewrite omap_app.
  destruct (omap id r1), (omap id r2); simpl; by rewrite ?app_nil_r.
Qed.

(** A request of a batch that raises ends the batch: the exception leaves
    [process_request_list], the responses gathered so far are lost and the
    requests after it are not processed, while the effects of the handlers
    that ran stay. *)
Theorem batch_aborts_on_exception self before q after ip st st1 o st2 e :
  process_request_list self before ip st = (st1, Ret o) →
  process_request self q ip st1 = (st2, Raise e) →
  process_request_list self (before ++ q :: after) ip st = (st2, Raise e).
Proof.
  intros Hbefore Hq. rewrite batch_append, Hbefore.
  unfold process_request_list at 1. simpl. unfold bind. by rewrite Hq.
Qed.

(** A batch of structurally invalid elements gets one Invalid Request
    error per element, in a list as long as the batch, and runs no
    handler. *)
Theorem invalid_batch self request ip st :
  Forall envelope_fault request →
  request ≠ [] →
  process_request_list self request ip st
  = (st, Ret (Some (replicate (length request)
                      (error_envelope (PInt (-32600)) (PStr "Invalid Request")
                         PNone)))).
Proof.
  intros Hall Hne. rewrite process_request_list_batch.
  unfold batch_responses, bind, ret.
  assert (mapM (λ q, process_request self q ip) request st
          = (st, Ret (replicate (length request)
                        (Some (error_envelope (PInt (-32600))
                                 (PStr "Invalid Request") PNone))))) as ->.
  { clear Hne. induction Hall as [|q rest Hq _ IH]; [done|].
    simpl. unfold bind at 1, process_request at 1.
    rewrite (envelope_fault_invalid _ Hq). simpl.
    unfold bind at 1. rewrite IH. reflexivity. }
  destruct request as [|q rest]; [done|]. simpl. do 3 f_equal.
  clear. induction (length rest) as [|n IH]; [done|]. simpl. by rewrite IH.
Qed.

(** *** Registration *)

(** [__init__] returns the server, with the methods and the configuration
    it was given, when every registered value is callable and has a
    parameter of its own; one value that is not callable, or has no
    parameter, makes it raise [TypeError]. *)
Theorem init_checks (ms : gmap string (method_obj W)) ao :
  ((∀ name m, ms !! name = Some m → callable m = true ∧ own_args m ≠ []) →
   init ms ao = Ret {| methods := ms; allowed_origins := ao; attributes := ∅ |})
  ∧ ((∃ name m, ms !! name = Some m ∧ (callable m = false ∨ own_args m = [])) →
     init ms ao = Raise TypeError).
Proof.
  split.
  - intros Hok. apply init_accepts_iff. intros name m Hm.
    destruct (Hok name m Hm) as [Hc Ha]. split; [done|].
    destruct (own_args m); [done|simpl; lia].
  - intros (name & m & Hm & Hbad).
    pose proof (init_accepts_iff ms ao) as Hiff. unfold init in *.
    destruct (forallb _ _); [|done]. exfalso.
    destruct (proj1 Hiff eq_refl name m Hm) as [Hc Ha].
    destruct Hbad as [Hbad|Hbad]; [congruence|].
    rewrite Hbad in Ha. simpl in Ha. lia.
Qed.

(** *** Keys of a dictionary *)

(** [dict_only_contains d keys] holds exactly when every key of [d] is in
    [keys], whatever the order of the keys; it fails exactly when some key
    of [d] is outside, and it still holds when [keys] grows or [d] loses a
    key. *)
Theorem dict_only_contains_keys d keys :
  (dict_only_contains d keys = true ↔ ∀ k, is_Some (d !! k) → k ∈ keys)
  ∧ (dict_only_contains d keys = false ↔ ∃ k, is_Some (d !! k) ∧ k ∉ keys)
  ∧ (∀ keys', dict_only_contains d keys = true → keys ⊆ keys' →
       dict_only_contains d keys' = true)
  ∧ (∀ k, dict_only_contains d keys = true →
       dict_only_contains (delete k d) keys = true).
Proof.
  split; [apply dict_only_contains_true|].
  split; [apply dict_only_contains_false|]. split.
  - intros keys' Hd Hsub. apply dict_only_contains_true. intros k Hk.
    apply Hsub. by eapply dict_only_contains_true.
  - intros k Hd. apply dict_only_contains_true. intros k' [v Hk'].
    eapply dict_only_contains_true; [done|].
    apply lookup_delete_Some in Hk' as [_ Hk']. by exists v.
Qed.

(** *** Parameters and header values at the edges *)

(** A request without a params member is bound as the empty sequence: with
    an id, it gets the Invalid params error when the handler has a
    parameter without default after the two leading ones, and otherwise the
    handler is called without arguments. *)
Theorem absent_params_bound_as_empty self d method a ip st rid :
  names_method self d method →
  original_func method = Some a →
  (length (default [] (defaults a)) ≤ length (args a))%nat →
  d !! "id" = Some rid →
  d !! "params" = None →
  (0 < required_count a →
   process_request self (PDict d) ip st
   = (st, Ret (Some (error_envelope (PInt (-32602)) (PStr "Invalid params")
                       rid))))
  ∧ (required_count a ≤ 0 →
     process_request self (PDict d) ip st
     = after_call st rid (call method ip (Positional []) (world st))).
Proof.
  intros Hn Ho Hle Hid Hp. rewrite <- (req_args_required_count a Hle).
  assert (request_params d = PList []) as Hparams
    by (unfold request_params; by rewrite Hp).
  split; intros Hreq.
  - apply (process_request_invalid_params _ _ _ _ _ _ _ Hn Ho Hid).
    rewrite Hparams. apply invalid_params_list. simpl. lia.
  - apply (process_request_after_call _ _ _ _ _ _ _ _ Hn Ho Hid).
    + rewrite Hparams. apply not_true_iff_false.
      rewrite invalid_params_list. simpl. lia.
    + by rewrite Hparams.
Qed.

Lemma lstrip_all_space ws s :
  all_space ws = true → PyStr.lstrip (ws +:+ s) = PyStr.lstrip s.
Proof.
  induction ws as [|c ws IH]; simpl; [done|].
  intros Hws. apply andb_prop in Hws as [Hc Hws]. rewrite Hc. by apply IH.
Qed.

Lemma all_space_no_semicolon ws :
  all_space ws = true → PyStr.contains ";" ws = false.
Proof.
  induction ws as [|c ws IH]; simpl; [done|].
  intros Hws. apply andb_prop in Hws as [Hc Hws]. rewrite (IH Hws).
  destruct (Ascii.eqb_spec c ";") as [->|]; [done|done].
Qed.

Lemma contains_app sep s1 s2 :
  PyStr.contains sep (s1 +:+ s2)
  = PyStr.contains sep s1 || PyStr.contains sep s2.
Proof.
  induction s1 as [|c s1 IH]; simpl; [done|]. by rewrite IH, orb_assoc.
Qed.

Lemma charset_prefix_kept v :
  PyStr.take 8 (PyStr.strip ("charset=" +:+ v)) = "charset=".
Proof.
  unfold PyStr.strip. simpl. change ("" +:+ v) with v.
  destruct (PyStr.rstrip v); reflexivity.
Qed.

(** A Content-Type (or Accept) value made of one of the three media types,
    a semicolon, any whitespace, [charset=] and any text without a
    semicolon passes the check: the charset itself is not looked at. *)
Theorem charset_parameter_accepted base ws v :
  base ∈ json_media_types →
  all_space ws = true →
  PyStr.contains ";" v = false →
  not_valid_content_type (base +:+ ";" +:+ ws +:+ "charset=" +:+ v) = false.
Proof.
  intros Hbase Hws Hv. apply not_valid_content_type_false.
  exists base. split; [done|]. right. exists (ws +:+ "charset=" +:+ v).
  split; [done|]. split.
  - rewrite !contains_app, (all_space_no_semicolon _ Hws), Hv. done.
  - unfold PyStr.strip. rewrite (lstrip_all_space _ _ Hws).
    apply charset_prefix_kept.
Qed.

Lemma split_on_length_app sep a b :
  length (PyStr.split_on sep (a +:+ String sep b))
  = (length (PyStr.split_on sep a) + length (PyStr.split_on sep b))%nat.
Proof.
  induction a as [|c a IH]; simpl.
  - by rewrite Ascii.eqb_refl.
  - destruct (Ascii.eqb c sep); simpl; [by rewrite IH|].
    pose proof (split_on_nonempty sep a).
    pose proof (split_on_nonempty sep (a +:+ String sep b)).
    destruct (PyStr.split_on sep a), (PyStr.split_on sep (a +:+ String sep b));
      try done; simpl in *; lia.
Qed.

Lemma split_on_length_pos sep s : (1 ≤ length (PyStr.split_on sep s))%nat.
Proof.
  pose proof (split_on_nonempty sep s).
  destruct (PyStr.split_on sep s); [done|simpl; lia].
Qed.

(** A value with two semicolons or more is rejected, whatever stands
    between them: a media type with two parameters never passes. *)
Theorem two_semicolons_rejected a b c :
  not_valid_content_type (a +:+ ";" +:+ b +:+ ";" +:+ c) = true.
Proof.
  unfold not_valid_content_type.
  change (a +:+ ";" +:+ b +:+ ";" +:+ c)
    with (a +:+ String ";" (b +:+ String ";" c)).
  pose proof (split_on_length_app ";" a (b +:+ String ";" c)) as H1.
  pose proof (split_on_length_app ";" b c) as H2.
  pose proof (split_on_length_pos ";" a).
  pose proof (split_on_length_pos ";" b).
  pose proof (split_on_length_pos ";" c).
  destruct (Z.ltb_spec 2 (Z.of_nat (length (PyStr.split_on ";"
              (a +:+ String ";" (b +:+ String ";" c)))))); [done|lia].
Qed.

End MoreProperties.

(** ** Examples *)

Section Instances.

Import Examples.

(** Scenario 1 of the specification. *)
Example add_2_3_result :
  process_request server (PDict add_2_3) None st0
  = (with_world 1%nat st0, Ret (Some (result_envelope (PInt 5) (PInt 1)))).
Proof. vm_compute. reflexivity. Qed.

(** Scenario 2 of the specification. *)
Example missing_version_error :
  process_request server missing_version None st0
  = (st0, Ret (Some (error_envelope (PInt (-32600)) (PStr "Invalid Request")
                       PNone))).
Proof. vm_compute. reflexivity. Qed.

(** Scenario 5 of the specification: both handlers run, one response. *)
Example batch_of_two :
  process_request_list server [PDict add_1_1; PDict notify_2_2] None st0
  = (with_world 2%nat st0,
     Ret (Some [result_envelope (PInt 2) (PInt 7)])).
Proof. vm_compute. reflexivity. Qed.

(** Scenario 3 of the specification. *)
Example unknown_method_error :
  process_request server (PDict (call_of "missing")) None st0
  = (st0, Ret (Some (error_envelope (PInt (-32601)) (PStr "Method not found")
                       (PInt 1)))).
Proof. vm_compute. reflexivity. Qed.

Example ct_json_charset :
  not_valid_content_type "application/json; charset=utf-8" = false.
Proof. reflexivity. Qed.

Example ct_text_plain : not_valid_content_type "text/plain" = true.
Proof. reflexivity. Qed.

Example ct_trailing_semicolon : not_valid_content_type "application/json;" = true.
Proof. reflexivity. Qed.

Lemma names_registered d name method :
  is_valid_request (PDict d) = true →
  d !! "method" = Some (PStr name) →
  example_methods !! name = Some method →
  names_method server d method.
Proof. intros Hv Hm Hl. split; [done|]. exists name. by split. Qed.

Lemma invalid_envelope_witness :
  process_request server (PDict missing_version_and_id) None st0
  = (st0, Ret (Some (error_envelope (PInt (-32600)) (PStr "Invalid Request")
                       PNone))).
Proof.
  apply (invalid_envelope_yields_invalid_request
           server (PDict missing_version_and_id) None st0).
  right. left. vm_compute. discriminate.
Defined.

Lemma notification_witness :
  process_request server (PDict notify_add) None st0
  = (with_world 1%nat st0, Ret None).
Proof.
  apply (proj2 (proj2 (proj2
           (notification_yields_no_response server notify_add None st0
              ltac:(vm_compute; reflexivity) ltac:(vm_compute; reflexivity))))
         add_method add_spec (Positional [PInt 1; PInt 2]) 1%nat (PInt 3)).
  - apply (names_registered notify_add "add"); vm_compute; reflexivity.
  - reflexivity.
  - vm_compute; reflexivity.
  - vm_compute; reflexivity.
  - reflexivity.
Defined.

Lemma json_post_passes body :
  passes_header_checks (post (Some "application/json") body).
Proof.
  split; [reflexivity|]. split.
  - exists "application/json". split; reflexivity.
  - intros accept Ha. discriminate Ha.
Qed.

Lemma batch_of_three_runs :
  batch_run server loopback st0 batch_requests
    [Some (result_envelope (PInt 2) (PInt 7)); None;
     Some (result_envelope (PInt 5) (PInt 1))]
    (with_world 3%nat st0).
Proof.
  eapply batch_run_cons; [vm_compute; reflexivity|].
  eapply batch_run_cons; [vm_compute; reflexivity|].
  eapply batch_run_cons; [vm_compute; reflexivity|].
  apply batch_run_nil.
Qed.

Lemma batch_witness :
  (process_call server (post (Some "application/json") "[]") st0
   = (record_response HTTP_NO_CONTENT [] st0, Ret None)
   ∧ call_server server (post (Some "application/json") "[]") st0
     = (record_response HTTP_NO_CONTENT [] st0, Ret [[]]))
  ∧ process_request_list server batch_requests loopback st0
    = (with_world 3%nat st0,
       Ret (Some [result_envelope (PInt 2) (PInt 7);
                  result_envelope (PInt 5) (PInt 1)]))
  ∧ process_call server (post (Some "application/json") batch_text) st0
    = (record_response HTTP_OK base_headers (with_world 3%nat st0),
       Ret (Some (PList [result_envelope (PInt 2) (PInt 7);
                         result_envelope (PInt 5) (PInt 1)]))).
Proof.
  split; [|split].
  - exact (proj2 (proj2 (proj2
             (batch_processing (lib:=example_lib) server [] loopback st0 []
                st0 (batch_run_nil server loopback st0))))
             (post (Some "application/json") "[]") base_headers
             eq_refl (json_post_passes "[]") eq_refl
             ltac:(vm_compute; reflexivity)).
  - exact (proj1 (batch_processing (lib:=example_lib) server batch_requests
                    loopback st0 _ _ batch_of_three_runs)).
  - pose proof (proj2 (proj2 (proj2
             (batch_processing (lib:=example_lib) server batch_requests
                loopback st0 _ _ batch_of_three_runs)))
             (post (Some "application/json") batch_text) base_headers
             eq_refl (json_post_passes batch_text) eq_refl
             ltac:(vm_compute; reflexivity)) as Hcall.
    exact (proj1 Hcall).
Defined.

(** A batch whose second request raises: the first request has a response,
    yet the batch returns no list at all, the exception leaves
    [process_request_list]. *)
Lemma raising_batch_returns_nothing :
  process_request faulty_server (PDict add_1_1) None st0
  = (with_world 1%nat st0, Ret (Some (result_envelope (PInt 2) (PInt 7))))
  ∧ process_request_list faulty_server
      [PDict add_1_1; PDict (call_of "raise"); PDict add_2_3] None st0
    = (with_world 2%nat st0, Raise (HandlerError "boom"))
  ∧ ∀ st' out,
      process_request_list faulty_server
        [PDict add_1_1; PDict (call_of "raise"); PDict add_2_3] None st0
      ≠ (st', Ret out).
Proof.
  assert (process_request_list faulty_server
            [PDict add_1_1; PDict (call_of "raise"); PDict add_2_3] None st0
          = (with_world 2%nat st0, Raise (HandlerError "boom"))) as Hraise
    by (vm_compute; reflexivity).
  split; [vm_compute; reflexivity|]. split; [exact Hraise|].
  intros st' out Heq. rewrite Hraise in Heq. discriminate Heq.
Qed.

(** A body of 2000 nested arrays: the parser gives up with
    [RecursionError], which is not a [ValueError], and the call ends in that
    exception without a 400 response. *)
Lemma deep_body_escapes :
  utf8_decode (wsgi_input (post (Some "application/json") deep_text))
  = Some deep_text
  ∧ json_loads deep_text = Raise RecursionError
  ∧ process_call server (post (Some "application/json") deep_text) st0
    = (st0, Raise RecursionError).
Proof.
  split; [vm_compute; reflexivity|]. split; vm_compute; reflexivity.
Qed.

Lemma scale_registered params :
  names_method scaling_server (scale_with params) scale_method.
Proof.
  split; [vm_compute; reflexivity|]. exists "scale".
  split; vm_compute; reflexivity.
Qed.

Lemma positional_binding_witness :
  process_request scaling_server (PDict (scale_with [])) None st0
  = (st0, Ret (Some (error_envelope (PInt (-32602)) (PStr "Invalid params")
                       (PInt 1))))
  ∧ process_request scaling_server (PDict (scale_with [PInt 5])) None st0
    = (with_world 1%nat st0, Ret (Some (result_envelope (PInt 10) (PInt 1)))).
Proof.
  split.
  - apply (proj1 (proj2 (proj2
             (positional_binding scaling_server (scale_with []) scale_method
                scale_spec None st0 (PInt 1) [] (scale_registered []) eq_refl
                ltac:(simpl; lia) ltac:(vm_compute; reflexivity)
                ltac:(vm_compute; reflexivity))))).
    vm_compute. reflexivity.
  - rewrite (proj1 (proj2 (proj2 (proj2
               (positional_binding scaling_server (scale_with [PInt 5])
                  scale_method scale_spec None st0 (PInt 1) [PInt 5]
                  (scale_registered [PInt 5]) eq_refl
                  ltac:(simpl; lia) ltac:(vm_compute; reflexivity)
                  ltac:(vm_compute; reflexivity)))))
               ltac:(vm_compute; discriminate)).
    reflexivity.
Defined.



(** Named parameters that bind: the handler runs. *)
Example add_a_b_result :
  process_request server (PDict add_a_b) None st0
  = (with_world 1%nat st0, Ret (Some (result_envelope (PInt 5) (PInt 1)))).
Proof. vm_compute. reflexivity. Qed.

Lemma handler_return_witness :
  process_request server (PDict (call_of "refuse")) None st0
  = (with_world 1%nat st0,
     Ret (Some (error_envelope (PInt 7) (PStr "boom") (PInt 1)))).
Proof.
  apply (proj1
           (handler_return_envelope server (call_of "refuse") refuse_method
              no_params_spec None (Positional []) st0 (PInt 1) 1%nat
              (PTuple [PInt 7; PStr "boom"])
              (names_registered (call_of "refuse") "refuse" refuse_method
                 ltac:(vm_compute; reflexivity) ltac:(vm_compute; reflexivity)
                 ltac:(vm_compute; reflexivity))
              eq_refl ltac:(vm_compute; reflexivity)
              ltac:(vm_compute; reflexivity) ltac:(vm_compute; reflexivity)
              eq_refl)
           (PInt 7) (PStr "boom") []).
  reflexivity.
Defined.

(** A handler that returns a tuple of three elements, which is not a
    (code, message) pair: the response is not a success envelope with the
    tuple as result, it is an error envelope built from the first two
    elements. *)
Lemma three_tuple_is_error_envelope :
  call triple_method None (Positional []) 0%nat
  = (1%nat, Ret (PTuple [PInt 7; PStr "boom"; PNone]))
  ∧ length [PInt 7; PStr "boom"; PNone] ≠ 2%nat
  ∧ process_request server (PDict (call_of "triple")) None st0
    = (with_world 1%nat st0,
       Ret (Some (error_envelope (PInt 7) (PStr "boom") (PInt 1))))
  ∧ process_request server (PDict (call_of "triple")) None st0
    ≠ (with_world 1%nat st0,
       Ret (Some (result_envelope (PTuple [PInt 7; PStr "boom"; PNone])
                    (PInt 1)))).
Proof.
  split; [reflexivity|]. split; [simpl; lia|]. split.
  - vm_compute. reflexivity.
  - vm_compute. intros Heq. discriminate Heq.
Qed.

Lemma content_type_witness :
  process_call server (post (Some "text/plain") "") st0
  = (record_response HTTP_UNSUPPORTED_MEDIA base_headers st0,
     Ret (Some (error_envelope (PInt 1)
                  (PStr "Bad or missing Content-Type header") PNone))).
Proof.
  apply (proj2 (proj2 (proj2 (proj2
           (content_type_check (lib:=example_lib) server
              (post (Some "text/plain") "") st0 base_headers
              eq_refl eq_refl))))).
  reflexivity.
Defined.

Lemma malformed_body_witness :
  process_call server (post (Some "application/json") "{") st0
  = (record_response HTTP_BAD_REQUEST base_headers st0,
     Ret (Some (error_envelope (PInt (-32700)) (PStr "Parse error") PNone))).
Proof.
  apply (malformed_body_parse_error (lib:=example_lib) server
           (post (Some "application/json") "{") st0 base_headers loopback
           eq_refl (json_post_passes "{") eq_refl).
  right. exists "{". split; vm_compute; reflexivity.
Defined.

Lemma missing_original_func_witness :
  init example_methods None = Ret server
  ∧ process_request server (PDict (call_of "bare")) None st0
    = (st0, Raise AttributeError).
Proof.
  assert (init example_methods None = Ret server) as Hinit
    by (vm_compute; reflexivity).
  split; [exact Hinit|].
  apply (missing_original_func_raises example_methods None server
           (call_of "bare") "bare" bare_method None st0 Hinit).
  - vm_compute. reflexivity.
  - reflexivity.
  - vm_compute. reflexivity.
  - vm_compute. reflexivity.
Defined.

Lemma allowed_origins_witness :
  init example_methods (Some "*") = Ret cors_server
  ∧ process_call cors_server (post (Some "application/json") "[]") st0
    = (st0, Raise AttributeError)
  ∧ call_server cors_server (post (Some "application/json") "[]") st0
    = (st0, Raise AttributeError).
Proof.
  assert (init example_methods (Some "*") = Ret cors_server) as Hinit
    by (vm_compute; reflexivity).
  split; [exact Hinit|].
  exact (allowed_origins_call_raises (lib:=example_lib) example_methods "*"
           cors_server (post (Some "application/json") "[]") st0 Hinit).
Defined.

(** The same server with the attribute the call reads: the header is sent. *)
Example allowed_origin_attribute_set :
  process_call
    {| methods := example_methods; allowed_origins := Some "*";
       attributes := {["allowed_origin" := "*"]} |}
    (post (Some "text/plain") "") st0
  = (record_response HTTP_UNSUPPORTED_MEDIA
       (base_headers ++ [("Access-Control-Allow-Origin", "*")]) st0,
     Ret (Some (error_envelope (PInt 1)
                  (PStr "Bad or missing Content-Type header") PNone))).
Proof. vm_compute. reflexivity. Qed.

End Instances.

Section MoreInstances.

Import Examples.

Lemma faulty_registered d name method :
  is_valid_request (PDict d) = true →
  d !! "method" = Some (PStr name) →
  faulty_methods !! name = Some method →
  names_method faulty_server d method.
Proof. intros Hv Hm Hl. split; [done|]. exists name. by split. Qed.

Lemma options_preflight_witness :
  process_call server (with_method "OPTIONS" None) st0
  = (record_response HTTP_OK (preflight_headers base_headers) st0, Ret None).
Proof.
  apply (options_preflight (lib:=example_lib) server
           (with_method "OPTIONS" None) st0 base_headers eq_refl eq_refl).
Defined.

Lemma other_method_witness :
  process_call server (with_method "post" (Some "application/json")) st0
  = (record_response HTTP_METHOD_NOT_ALLOWED (allow_post base_headers) st0,
     Ret (Some (error_envelope (PInt 0) (PStr "Only POST allowed") PNone))).
Proof.
  apply (other_method_not_allowed (lib:=example_lib) server
           (with_method "post" (Some "application/json")) st0 base_headers
           eq_refl).
  - simpl. discriminate.
  - simpl. discriminate.
Defined.

Lemma bad_accept_witness :
  process_call server (post_accepting "text/html") st0
  = (record_response HTTP_NOT_ACCEPTABLE base_headers st0,
     Ret (Some (error_envelope (PInt 2) (PStr "Bad Accept header") PNone))).
Proof.
  apply (bad_accept_not_acceptable (lib:=example_lib) server
           (post_accepting "text/html") st0 base_headers
           "application/json" "text/html" eq_refl eq_refl eq_refl).
  - apply not_valid_content_type_false. reflexivity.
  - reflexivity.
  - apply not_valid_content_type_true. reflexivity.
Defined.

Lemma malformed_remote_addr_witness :
  process_call server (post_from "unix-socket" "[]") st0
  = (st0, Raise ValueError).
Proof.
  apply (malformed_remote_addr_raises (lib:=example_lib) server
           (post_from "unix-socket" "[]") st0 base_headers "unix-socket"
           eq_refl).
  - split; [reflexivity|]. split.
    + exists "application/json". split; reflexivity.
    + intros accept Ha. discriminate Ha.
  - reflexivity.
  - reflexivity.
Defined.

Lemma single_request_dispatch_witness :
  process_call server (post (Some "application/json") "1") st0
  = (record_response HTTP_OK base_headers st0,
     Ret (Some (error_envelope (PInt (-32600)) (PStr "Invalid Request") PNone))).
Proof.
  rewrite (single_request_dispatch (lib:=example_lib) server
             (post (Some "application/json") "1") st0 base_headers loopback
             (PInt 1) eq_refl (json_post_passes "1") eq_refl
             ltac:(vm_compute; reflexivity)
             ltac:(intros l Hl; discriminate Hl)).
  reflexivity.
Defined.

Lemma process_call_responses_witness :
  ∃ status hs,
    started (record_response HTTP_NO_CONTENT [] st0)
    = started st0 ++ [(status, hs)]
    ∧ ((status = HTTP_NO_CONTENT ∧ hs = [])
       ∨ (REQUEST_METHOD (post (Some "application/json") "[]") = "OPTIONS"
          ∧ status = HTTP_OK)).
Proof.
  apply (process_call_responses (lib:=example_lib) server
           (post (Some "application/json") "[]") st0
           (record_response HTTP_NO_CONTENT [] st0) (Ret None)).
  vm_compute. reflexivity.
Defined.

Lemma process_request_envelope_witness :
  response_envelope (PInt 1) (result_envelope (PInt 5) (PInt 1)).
Proof.
  apply (process_request_envelope server (PDict add_2_3) None st0
           (with_world 1%nat st0) (result_envelope (PInt 5) (PInt 1))).
  vm_compute. reflexivity.
Defined.

Lemma request_with_id_answered_witness :
  ∃ v, Some (result_envelope (PInt 5) (PInt 1)) = Some v
       ∧ response_envelope (PInt 1) v.
Proof.
  apply (request_with_id_answered server add_2_3 (PInt 1) None st0
           (with_world 1%nat st0)).
  - vm_compute. reflexivity.
  - vm_compute. reflexivity.
  - vm_compute. reflexivity.
Defined.

Lemma unknown_method_witness :
  process_request server (PDict (call_of "Add")) None st0
  = (st0, Ret (Some (error_envelope (PInt (-32601)) (PStr "Method not found")
                       (PInt 1)))).
Proof.
  apply (unknown_method_with_id server (call_of "Add") "Add" (PInt 1) None st0).
  - vm_compute. reflexivity.
  - vm_compute. reflexivity.
  - vm_compute. reflexivity.
  - vm_compute. reflexivity.
Defined.

Lemma short_tuple_witness :
  process_request faulty_server (PDict (call_of "short")) None st0
  = (with_world 1%nat st0, Raise IndexError).
Proof.
  apply (short_tuple_raises faulty_server (call_of "short") short_tuple_method
           no_params_spec None (Positional []) st0 (PInt 1) 1%nat [PInt 7]).
  - apply (faulty_registered (call_of "short") "short"); vm_compute; reflexivity.
  - reflexivity.
  - vm_compute. reflexivity.
  - vm_compute. reflexivity.
  - vm_compute. reflexivity.
  - reflexivity.
  - simpl. lia.
Defined.

Lemma handler_exception_witness :
  process_request faulty_server (PDict (notify_of "raise")) None st0
  = (with_world 1%nat st0, Raise (HandlerError "boom")).
Proof.
  apply (handler_exception_propagates faulty_server (notify_of "raise")
           raising_method no_params_spec None (Positional []) st0 1%nat).
  - apply (faulty_registered (notify_of "raise") "raise"); vm_compute; reflexivity.
  - reflexivity.
  - vm_compute. reflexivity.
  - vm_compute. reflexivity.
  - reflexivity.
Defined.

Lemma batch_aborts_witness :
  process_request_list faulty_server
    ([PDict add_1_1] ++ PDict (call_of "raise") :: [PDict add_2_3]) None st0
  = (with_world 2%nat st0, Raise (HandlerError "boom")).
Proof.
  apply (batch_aborts_on_exception faulty_server [PDict add_1_1]
           (PDict (call_of "raise")) [PDict add_2_3] None st0
           (with_world 1%nat st0)
           (Some [result_envelope (PInt 2) (PInt 7)])).
  - vm_compute. reflexivity.
  - vm_compute. reflexivity.
Defined.

Lemma invalid_batch_witness :
  process_request_list server [PInt 1; missing_version] None st0
  = (st0, Ret (Some [error_envelope (PInt (-32600)) (PStr "Invalid Request") PNone;
                     error_envelope (PInt (-32600)) (PStr "Invalid Request") PNone])).
Proof.
  apply (invalid_batch server [PInt 1; missing_version] None st0).
  - constructor; [exact I|]. constructor; [|constructor].
    right. left. vm_compute. discriminate.
  - discriminate.
Defined.

Lemma init_checks_witness :
  init example_methods None = Ret server
  ∧ init (<["broken" := not_callable]> example_methods) None = Raise TypeError.
Proof.
  split.
  - apply (proj1 (init_checks example_methods None)).
    intros name m Hm.
    assert (m ∈ (map_to_list example_methods).*2) as Hin.
    { apply list_elem_of_fmap. exists (name, m). split; [done|].
      by apply elem_of_map_to_list. }
    vm_compute in Hin.
    repeat (apply elem_of_cons in Hin as [->|Hin]; [by split|]).
    by apply elem_of_nil in Hin.
  - apply (proj2 (init_checks (<["broken" := not_callable]> example_methods)
                    None)).
    exists "broken", not_callable. split; [apply lookup_insert_eq|by left].
Defined.

Lemma dict_only_contains_witness :
  dict_only_contains add_2_3 ["jsonrpc"; "method"; "params"; "id"; "extra"]
  = true.
Proof.
  apply (proj1 (proj2 (proj2
           (dict_only_contains_keys add_2_3
              ["jsonrpc"; "method"; "params"; "id"])))
           ["jsonrpc"; "method"; "params"; "id"; "extra"]).
  - vm_compute. reflexivity.
  - intros k Hk. apply list_elem_of_In in Hk. apply list_elem_of_In.
    simpl in *. tauto.
Defined.

Lemma absent_params_witness :
  process_request server (PDict (call_of "add")) None st0
  = (st0, Ret (Some (error_envelope (PInt (-32602)) (PStr "Invalid params")
                       (PInt 1)))).
Proof.
  apply (proj1 (absent_params_bound_as_empty server (call_of "add") add_method
                  add_spec None st0 (PInt 1)
                  (names_registered (call_of "add") "add" add_method
                     ltac:(vm_compute; reflexivity)
                     ltac:(vm_compute; reflexivity)
                     ltac:(vm_compute; reflexivity))
                  eq_refl ltac:(simpl; lia) ltac:(vm_compute; reflexivity)
                  ltac:(vm_compute; reflexivity))).
  vm_compute. reflexivity.
Defined.

Lemma charset_parameter_witness :
  not_valid_content_type "application/json-rpc;  charset=ISO-8859-1" = false.
Proof.
  apply (charset_parameter_accepted "application/json-rpc" "  " "ISO-8859-1").
  - apply list_elem_of_In. simpl. tauto.
  - reflexivity.
  - reflexivity.
Defined.

End MoreInstances.
